(** * ZetsuQRCodeZ: the link/scan registry (server.ts) and the artistic QR
    compositor (App.tsx, generateArtisticQR), embedded and verified.

    The server keeps three SQLite tables (links, scans, settings) and serves
    each request with a synchronous handler: better-sqlite3 statements block,
    no handler awaits between two statements, so the event loop runs a handler
    to completion before the next request is looked at.  A handler is
    therefore a function from the database before to the database after and
    the response.  No handler opens a transaction: where a handler runs two
    statements, the database file between them is given separately
    ([delete_links_commits]).

    Numbers of the canvas (App.tsx) are modelled as exact rationals. *)

From Stdlib Require Import QArith Lqa.
From stdpp Require Import base list strings gmap sorting.

Local Open Scope nat_scope.

(** ** JavaScript's [x || d] on a string that may be undefined *)

(** [undefined] and the empty string are both falsy. *)
Definition or_default (x : option string) (d : string) : string :=
  match x with
  | Some s => if decide (s = "") then d else s
  | None => d
  end.

(** [!x] on a string that may be undefined. *)
Definition falsy (x : option string) : bool :=
  match x with
  | Some s => bool_decide (s = "")
  | None => true
  end.

(** ** Timestamps

    SQLite's CURRENT_TIMESTAMP is the text YYYY-MM-DD HH:MM:SS; comparing two
    such texts compares the six fields from the left, and [date(t)] keeps the
    first three. *)

Record calendar_date := Date { d_year : nat; d_month : nat; d_day : nat }.

Record datetime := DateTime {
  year : nat; month : nat; day : nat;
  hour : nat; minute : nat; second : nat
}.

Global Instance date_eq_dec : EqDecision calendar_date.
Proof. solve_decision. Defined.
Global Instance datetime_eq_dec : EqDecision datetime.
Proof. solve_decision. Defined.

(** SQL [date(t)]. *)
Definition date_of (t : datetime) : calendar_date := Date (year t) (month t) (day t).

Definition date_le (a b : calendar_date) : Prop :=
  d_year a < d_year b ∨ (d_year a = d_year b ∧
  (d_month a < d_month b ∨ (d_month a = d_month b ∧ d_day a ≤ d_day b))).

Definition date_lt (a b : calendar_date) : Prop :=
  d_year a < d_year b ∨ (d_year a = d_year b ∧
  (d_month a < d_month b ∨ (d_month a = d_month b ∧ d_day a < d_day b))).

Definition datetime_le (a b : datetime) : Prop :=
  year a < year b ∨ (year a = year b ∧
  (month a < month b ∨ (month a = month b ∧
  (day a < day b ∨ (day a = day b ∧
  (hour a < hour b ∨ (hour a = hour b ∧
  (minute a < minute b ∨ (minute a = minute b ∧ second a ≤ second b))))))))).

Definition datetime_lt (a b : datetime) : Prop :=
  year a < year b ∨ (year a = year b ∧
  (month a < month b ∨ (month a = month b ∧
  (day a < day b ∨ (day a = day b ∧
  (hour a < hour b ∨ (hour a = hour b ∧
  (minute a < minute b ∨ (minute a = minute b ∧ second a < second b))))))))).

Global Instance date_le_dec : RelDecision date_le.
Proof. intros a b. unfold date_le. apply _. Defined.
Global Instance date_lt_dec : RelDecision date_lt.
Proof. intros a b. unfold date_lt. apply _. Defined.
Global Instance datetime_le_dec : RelDecision datetime_le.
Proof. intros a b. unfold datetime_le. apply _. Defined.
Global Instance datetime_lt_dec : RelDecision datetime_lt.
Proof. intros a b. unfold datetime_lt. apply _. Defined.

(** The text of a date, as [date()] returns it (four-digit years). *)
Definition digit (n : nat) : string :=
  String (Ascii.ascii_of_nat (48 + n `mod` 10)) "".

Definition pad2 (n : nat) : string := digit (n `div` 10) +:+ digit n.

Definition pad4 (n : nat) : string :=
  digit (n `div` 1000) +:+ digit (n `div` 100) +:+ pad2 n.

Definition date_text (d : calendar_date) : string :=
  pad4 (d_year d) +:+ "-" +:+ pad2 (d_month d) +:+ "-" +:+ pad2 (d_day d).

(** ** The three tables *)

(** links(id PRIMARY KEY, target_url, created_at): the primary key makes the
    table a finite map from id to the other columns. *)
Record link_cols := LinkCols { lc_target_url : string; lc_created_at : datetime }.

(** A row of links, as SELECT returns it. *)
Record link := Link { id : string; target_url : string; created_at : datetime }.

(** scans(id AUTOINCREMENT, link_id, scanned_at, user_agent), in rowid order. *)
Record scan := Scan {
  scan_id : nat; link_id : string; scanned_at : datetime; user_agent : string
}.

Global Instance link_eq_dec : EqDecision link.
Proof. solve_decision. Defined.
Global Instance scan_eq_dec : EqDecision scan.
Proof. solve_decision. Defined.

Record db := Db {
  links : gmap string link_cols;
  scans : list scan;
  scans_seq : nat;               (* sqlite_sequence: the largest scan id given out *)
  settings : gmap string string
}.

Definition link_row (i : string) (c : link_cols) : link :=
  Link i (lc_target_url c) (lc_created_at c).

(** The database file before the first start. *)
Definition empty_db : db := Db ∅ [] 0 ∅.

(** server.ts 17-35: CREATE TABLE IF NOT EXISTS ...; INSERT OR IGNORE INTO
    settings (key, value) VALUES ('is_pro', 'false'). *)
Definition init_schema (d : db) : db :=
  match settings d !! "is_pro" with
  | Some _ => d
  | None => Db (links d) (scans d) (scans_seq d) (<["is_pro" := "false"]> (settings d))
  end.

Definition fresh_db : db := init_schema empty_db.

(** ** Statements *)

(** SELECT value FROM settings WHERE key = 'is_pro' *)
Definition select_is_pro (d : db) : option string := settings d !! "is_pro".

(** UPDATE settings SET value = 'true' WHERE key = 'is_pro' *)
Definition update_is_pro_true (d : db) : db :=
  Db (links d) (scans d) (scans_seq d)
     (alter (λ _, "true") "is_pro" (settings d)).

(** INSERT INTO links (id, target_url) VALUES (?, ?); the primary key rejects
    an id that is there already (the statement throws). *)
Definition insert_link (i u : string) (now : datetime) (d : db) : option db :=
  match links d !! i with
  | Some _ => None
  | None => Some (Db (<[i := LinkCols u now]> (links d)) (scans d) (scans_seq d) (settings d))
  end.

(** SELECT * FROM links WHERE id = ? *)
Definition select_link (i : string) (d : db) : option link :=
  link_row i <$> links d !! i.

(** DELETE FROM scans WHERE link_id = ? *)
Definition delete_scans (i : string) (d : db) : db :=
  Db (links d) (filter (λ s, link_id s ≠ i) (scans d)) (scans_seq d) (settings d).

(** DELETE FROM links WHERE id = ?, with the number of rows it changed. *)
Definition delete_link (i : string) (d : db) : db * nat :=
  (Db (delete i (links d)) (scans d) (scans_seq d) (settings d),
   match links d !! i with Some _ => 1 | None => 0 end).

(** INSERT INTO scans (link_id, user_agent) VALUES (?, ?) *)
Definition insert_scan (i ua : string) (now : datetime) (d : db) : db :=
  Db (links d)
     (scans d ++ [Scan (S (scans_seq d)) i now ua])
     (S (scans_seq d)) (settings d).

(** SELECT * FROM scans WHERE link_id = ? ORDER BY scanned_at DESC *)
Definition newer_scan (a b : scan) : Prop := datetime_le (scanned_at b) (scanned_at a).

Definition scans_of (i : string) (d : db) : list scan :=
  filter (λ s, link_id s = i) (scans d).

Definition select_scans (i : string) (d : db) : list scan :=
  merge_sort newer_scan (scans_of i d).

(** SELECT date(scanned_at) as date, COUNT( * ) as count FROM scans
    WHERE link_id = ? GROUP BY date(scanned_at) ORDER BY date ASC *)
Record chart_row := ChartRow { date : calendar_date; count : nat }.

Definition earlier_row (a b : chart_row) : Prop := date_le (date a) (date b).

Definition scan_dates (i : string) (d : db) : list calendar_date :=
  (λ s, date_of (scanned_at s)) <$> scans_of i d.

Definition group_by_date (ds : list calendar_date) : list chart_row :=
  (λ g, ChartRow g (length (filter (λ x, x = g) ds))) <$> remove_dups ds.

Definition select_chart_data (i : string) (d : db) : list chart_row :=
  merge_sort earlier_row (group_by_date (scan_dates i d)).

(** SELECT l.*, COUNT(s.id) as scan_count FROM links l
    LEFT JOIN scans s ON l.id = s.link_id GROUP BY l.id
    ORDER BY l.created_at DESC *)
Record link_count := LinkCount { lk : link; scan_count : nat }.

Definition newer_link (a b : link_count) : Prop :=
  datetime_le (created_at (lk b)) (created_at (lk a)).

Definition join_count (d : db) (kv : string * link_cols) : link_count :=
  LinkCount (link_row kv.1 kv.2) (length (scans_of kv.1 d)).

Definition select_links (d : db) : list link_count :=
  merge_sort newer_link (join_count d <$> map_to_list (links d)).

(** Strict versions of the two orders, for lists without ties. *)
Definition strictly_newer_link (a b : link_count) : Prop :=
  datetime_lt (created_at (lk b)) (created_at (lk a)).

Definition strictly_earlier_row (a b : chart_row) : Prop := date_lt (date a) (date b).

(** Referential integrity: every scan row names a stored link. *)
Definition scans_linked (d : db) : Prop :=
  ∀ s, s ∈ scans d → is_Some (links d !! link_id s).

(** ** Requests, responses and what the handlers take from outside *)

Record stripe_event := StripeEvent { ev_type : string }.

(** The process environment, Stripe's signature check
    (stripe.webhooks.constructEvent: the event, or the message it throws)
    and the encodeurl package, with which Express writes the Location
    header of a redirect. *)
Record config := Config {
  APP_URL : option string;
  STRIPE_WEBHOOK_SECRET : option string;
  constructEvent : string → option string → string → string + stripe_event;
  encodeUrl : string → string
}.

(** What one request reads from outside the process: the clock, the id
    shortid.generate() returns, and Stripe's answer to sessions.create (the
    message of the error, or session.url). *)
Record oracle := Oracle {
  now : datetime;
  shortid_generate : string;
  sessions_create : string + option string
}.

Inductive request :=
| PostWebhook (rawBody : string) (sig : option string)
| GetProStatus
| PostCheckout
| PostLinks (targetUrl : option string)
| DeleteLinks (i : string)
| GetAnalytics (i : string)
| GetLinks
| GetS (i : string) (userAgent : option string) (referrer : option string)
| GetOther.

Inductive body :=
| JReceived
| JProStatus (isPro : bool)
| JUrl (url : option string)
| JError (error : string)
| JCreated (i shortUrl : string)
| JSuccess
| JAnalytics (l : link) (ss : list scan) (chartData : list chart_row)
| JLinks (isPro : bool) (ls : list link_count) (totalCount hiddenCount : nat).

Inductive response :=
| Json (status : nat) (b : body)
| Send (status : nat) (text : string)
| Redirect (location : string)   (* 302 with this Location header *)
| Uncaught        (* an exception left the handler: Express answers 500 *)
| Page.           (* the single-page application *)

Definition base_url (cfg : config) : string :=
  or_default (APP_URL cfg) "http://localhost:3000".

(** ** The handlers of server.ts *)

(** POST /api/webhook *)
Definition post_webhook (cfg : config) (rawBody : string) (sig : option string)
    (d : db) : db * response :=
  match constructEvent cfg rawBody sig (or_default (STRIPE_WEBHOOK_SECRET cfg) "") with
  | inl msg => (d, Send 400 ("Webhook Error: " +:+ msg))
  | inr event =>
      let d' := if decide (ev_type event = "checkout.session.completed")
                then update_is_pro_true d else d in
      (d', Json 200 JReceived)
  end.

(** GET /api/pro-status *)
Definition get_pro_status (d : db) : db * response :=
  match select_is_pro d with
  | None => (d, Uncaught)
  | Some value => (d, Json 200 (JProStatus (bool_decide (value = "true"))))
  end.

(** POST /api/checkout *)
Definition post_checkout (o : oracle) (d : db) : db * response :=
  match sessions_create o with
  | inl msg => (d, Json 500 (JError msg))
  | inr url => (d, Json 200 (JUrl url))
  end.

(** POST /api/links *)
Definition post_links (cfg : config) (o : oracle) (targetUrl : option string)
    (d : db) : db * response :=
  if falsy targetUrl then (d, Json 400 (JError "Target URL is required"))
  else
    let i := shortid_generate o in
    match insert_link i (default "" targetUrl) (now o) d with
    | None => (d, Uncaught)
    | Some d' => (d', Json 200 (JCreated i (base_url cfg +:+ "/s/" +:+ i)))
    end.

(** DELETE /api/links/:id *)
Definition delete_links (i : string) (d : db) : db * response :=
  let d1 := delete_scans i d in
  let '(d2, changes) := delete_link i d1 in
  if decide (0 < changes) then (d2, Json 200 JSuccess)
  else (d2, Json 404 (JError "Link not found")).

(** GET /api/analytics/:id *)
Definition get_analytics (i : string) (d : db) : db * response :=
  match select_link i d with
  | None => (d, Json 404 (JError "Link not found"))
  | Some l => (d, Json 200 (JAnalytics l (select_scans i d) (select_chart_data i d)))
  end.

(** GET /api/links *)
Definition get_links (d : db) : db * response :=
  match select_is_pro d with
  | None => (d, Uncaught)
  | Some value =>
      let isPro := bool_decide (value = "true") in
      let ls := select_links d in
      if negb isPro && bool_decide (2 < length ls) then
        (d, Json 200 (JLinks false (take 2 ls) (length ls) (length ls - 2)))
      else
        (d, Json 200 (JLinks true ls (length ls) 0))
  end.

(** Express 4's [res.redirect(url)]: the Location header is
    [encodeUrl(url === 'back' ? req.get('Referrer') || '/' : url)]. *)
Definition res_redirect (cfg : config) (referrer : option string) (url : string)
    : response :=
  Redirect (encodeUrl cfg (if decide (url = "back") then or_default referrer "/"
                           else url)).

(** GET /s/:id *)
Definition get_s (cfg : config) (o : oracle) (i : string) (userAgent : option string)
    (referrer : option string) (d : db) : db * response :=
  match select_link i d with
  | Some l =>
      let ua := or_default userAgent "unknown" in
      (insert_scan i ua (now o) d, res_redirect cfg referrer (target_url l))
  | None => (d, Send 404 "Link not found")
  end.

(** The database file after each of the two statements of
    DELETE /api/links/:id (server.ts 115-116): the handler opens no
    transaction, so each statement is committed when run() returns. *)
Definition delete_links_commits (i : string) (d : db) : list db :=
  let d1 := delete_scans i d in
  [d1; (delete_link i d1).1].

Definition handle (cfg : config) (o : oracle) (r : request) (d : db) : db * response :=
  match r with
  | PostWebhook rawBody sig => post_webhook cfg rawBody sig d
  | GetProStatus => get_pro_status d
  | PostCheckout => post_checkout o d
  | PostLinks targetUrl => post_links cfg o targetUrl d
  | DeleteLinks i => delete_links i d
  | GetAnalytics i => get_analytics i d
  | GetLinks => get_links d
  | GetS i userAgent referrer => get_s cfg o i userAgent referrer d
  | GetOther => (d, Page)
  end.

(** The states the server can be in: the fresh database, and what a request
    or a restart of the process makes of a state it can be in. *)
Inductive reachable (cfg : config) : db → Prop :=
| reach_fresh : reachable cfg fresh_db
| reach_request o r d : reachable cfg d → reachable cfg (handle cfg o r d).1
| reach_restart d : reachable cfg d → reachable cfg (init_schema d).

(** The ProStatus flag, as both readers compute it. *)
Definition isPro (d : db) : bool := bool_decide (select_is_pro d = Some "true").

(** ** The 2D canvas of App.tsx

    A context holds the current fill style and path, and what has been
    painted so far, oldest first.  Angles are in units of pi. *)

Record arc_seg := ArcSeg { ax : Q; ay : Q; aradius : Q; startAngle : Q; endAngle : Q }.

Record rgba := Rgba { red : Q; green : Q; blue : Q; alpha : Q }.

(** An image to draw, by the colour at each point of the unit square. *)
Definition image := Q → Q → rgba.

Inductive paint :=
| DrawImage (img : image) (dx dy dw dh : Q)
| FillPath (path : list arc_seg) (style : string)
| FillRect (x y w h : Q) (style : string).

Record context2d := Ctx { fillStyle : string; path : list arc_seg; painted : list paint }.

(** A new canvas: black fill style, empty path, nothing painted. *)
Definition new_context : context2d := Ctx "#000000" [] [].

Definition Math_PI : Q := 1.

Definition drawImage (img : image) (dx dy dw dh : Q) (c : context2d) : context2d :=
  Ctx (fillStyle c) (path c) (painted c ++ [DrawImage img dx dy dw dh]).

Definition beginPath (c : context2d) : context2d :=
  Ctx (fillStyle c) [] (painted c).

Definition arc (x y r a0 a1 : Q) (c : context2d) : context2d :=
  Ctx (fillStyle c) (path c ++ [ArcSeg x y r a0 a1]) (painted c).

Definition set_fillStyle (s : string) (c : context2d) : context2d :=
  Ctx s (path c) (painted c).

Definition fill (c : context2d) : context2d :=
  Ctx (fillStyle c) (path c) (painted c ++ [FillPath (path c) (fillStyle c)]).

Definition fillRect (x y w h : Q) (c : context2d) : context2d :=
  Ctx (fillStyle c) (path c) (painted c ++ [FillRect x y w h (fillStyle c)]).

(** *** What a painted canvas shows at a point *)

(** The four CSS colours the compositor uses. *)
Definition css_color (s : string) : option rgba :=
  if decide (s = "black") then Some (Rgba 0 0 0 1)
  else if decide (s = "white") then Some (Rgba 255 255 255 1)
  else if decide (s = "rgba(0,0,0,0.9)") then Some (Rgba 0 0 0 (9 # 10))
  else if decide (s = "rgba(255,255,255,0.9)") then Some (Rgba 255 255 255 (9 # 10))
  else if decide (s = "#000000") then Some (Rgba 0 0 0 1)
  else None.

Definition in_box (x y w h px py : Q) : bool :=
  Qle_bool x px && negb (Qle_bool (x + w) px) &&
  Qle_bool y py && negb (Qle_bool (y + h) py).

(** A full turn of an arc is a disc; the compositor draws no other path. *)
Definition in_arc (a : arc_seg) (px py : Q) : bool :=
  Qle_bool 2 (endAngle a - startAngle a) &&
  Qle_bool ((px - ax a) * (px - ax a) + (py - ay a) * (py - ay a))
           (aradius a * aradius a).

(** Source-over compositing of [src] on [dst]; an opaque source replaces. *)
Definition over (src dst : rgba) : rgba :=
  if Qeq_bool (alpha src) 1 then src
  else
    let a := (alpha src + alpha dst * (1 - alpha src))%Q in
    let mix (s t : Q) : Q :=
      ((s * alpha src + t * alpha dst * (1 - alpha src)) / a)%Q in
    Rgba (mix (red src) (red dst)) (mix (green src) (green dst))
         (mix (blue src) (blue dst)) a.

Definition paint_at (p : paint) (px py : Q) (under : rgba) : rgba :=
  match p with
  | DrawImage img dx dy dw dh =>
      if in_box dx dy dw dh px py
      then over (img ((px - dx) / dw)%Q ((py - dy) / dh)%Q) under else under
  | FillPath segs style =>
      match css_color style with
      | Some c => if existsb (λ a, in_arc a px py) segs then over c under else under
      | None => under
      end
  | FillRect x y w h style =>
      match css_color style with
      | Some c => if in_box x y w h px py then over c under else under
      | None => under
      end
  end.

(** The colour at a point after painting [ps] on a transparent canvas. *)
Definition sample (ps : list paint) (px py : Q) : rgba :=
  foldl (λ under p, paint_at p px py under) (Rgba 0 0 0 0) ps.

(** ** The QR encoder's result (the qrcode package): a square bit matrix *)

(** [modules.size] and [modules.get(row, col)]. *)
Record bit_matrix := BitMatrix { modules_size : nat; get : nat → nat → bool }.

(** ** generateArtisticQR, from the matrix on (App.tsx 209-247) *)

Definition num (n : nat) : Q := inject_Z (Z.of_nat n).

(** [for (let i = 0; i < n; i++) body] *)
Definition for_range {S : Type} (n : nat) (body : nat → S → S) (s : S) : S :=
  foldl (λ acc i, body i acc) s (seq 0 n).

Definition isFinder (moduleCount row col : nat) : bool :=
  bool_decide (row < 7) && bool_decide (col < 7) ||
  bool_decide (row < 7) && bool_decide (Z.of_nat moduleCount - 7 ≤ Z.of_nat col)%Z ||
  bool_decide (Z.of_nat moduleCount - 7 ≤ Z.of_nat row)%Z && bool_decide (col < 7).

Definition draw_dot (modules : bit_matrix) (scale : Q) (row col : nat)
    (ctx : context2d) : context2d :=
  let isDark := get modules row col in
  if isFinder (modules_size modules) row col then ctx
  else
    let centerX := (num col * scale + scale / 2)%Q in
    let centerY := (num row * scale + scale / 2)%Q in
    let radius := (scale * (18 # 100))%Q in
    let ctx := beginPath ctx in
    let ctx := arc centerX centerY radius 0 (Math_PI * 2)%Q ctx in
    let ctx := set_fillStyle
                 (if isDark then "rgba(0,0,0,0.9)" else "rgba(255,255,255,0.9)") ctx in
    fill ctx.

Definition draw_dots (modules : bit_matrix) (scale : Q) (ctx : context2d) : context2d :=
  let moduleCount := modules_size modules in
  for_range moduleCount (λ row,
    for_range moduleCount (λ col, draw_dot modules scale row col)) ctx.

Definition drawFinder (scale : Q) (x y : Q) (ctx : context2d) : context2d :=
  let ctx := set_fillStyle "black" ctx in
  let ctx := fillRect (x * scale) (y * scale) (7 * scale) (7 * scale) ctx in
  let ctx := set_fillStyle "white" ctx in
  let ctx := fillRect ((x + 1) * scale) ((y + 1) * scale) (5 * scale) (5 * scale) ctx in
  let ctx := set_fillStyle "black" ctx in
  fillRect ((x + 2) * scale) ((y + 2) * scale) (3 * scale) (3 * scale) ctx.

Definition canvas_size : Q := 1024.

Definition scale_of (modules : bit_matrix) : Q := (canvas_size / num (modules_size modules))%Q.

Definition draw_finders (modules : bit_matrix) (ctx : context2d) : context2d :=
  let moduleCount := num (modules_size modules) in
  let scale := scale_of modules in
  let ctx := drawFinder scale 0 0 ctx in
  let ctx := drawFinder scale (moduleCount - 7) 0 ctx in
  drawFinder scale 0 (moduleCount - 7) ctx.

(** The canvas after steps 4 to 6 of the compositor. *)
Definition composite (bgImg : image) (modules : bit_matrix) : context2d :=
  let size := canvas_size in
  let scale := scale_of modules in
  let ctx := drawImage bgImg 0 0 size size new_context in
  let ctx := draw_dots modules scale ctx in
  draw_finders modules ctx.

(** ** generateArtisticQR up to the matrix (App.tsx 147-207)

    The function awaits the server, the stylizer, the QR encoder and the
    image decoder; a program is the tree of these requests. *)

Inductive outcome :=
| NotStarted                      (* if (!sourceImage || !text) return *)
| NoContext                       (* if (!ctx) return *)
| ResultImage (canvas : context2d)
| ErrorMessage (message : string).

Inductive client (A : Type) : Type :=
| Return (a : A)
| Throw (message : string)
| FetchPostLinks (targetUrl : string) (k : response → client A)
| GenerateContent (sourceImage : string)
    (k : string + list (option string) → client A)
| QRCodeCreate (text : option string) (errorCorrectionLevel : string)
    (k : string + bit_matrix → client A)
| GetContext2d (k : bool → client A)
| LoadImage (src : string) (k : option image → client A).

Arguments Return {A} a.
Arguments Throw {A} message.
Arguments FetchPostLinks {A} targetUrl k.
Arguments GenerateContent {A} sourceImage k.
Arguments QRCodeCreate {A} text errorCorrectionLevel k.
Arguments GetContext2d {A} k.
Arguments LoadImage {A} src k.

(** [const { shortUrl } = await linkRes.json()]: [None] when the body is not
    JSON (json() rejects), [Some None] when the object has no shortUrl. *)
Definition json_shortUrl (r : response) : option (option string) :=
  match r with
  | Json _ (JCreated _ shortUrl) => Some (Some shortUrl)
  | Json _ _ => Some None
  | _ => None
  end.

(** The loop over the parts of the stylizer's answer: the first inline image,
    as a data URL, or the empty string. *)
Fixpoint first_inline (parts : list (option string)) : string :=
  match parts with
  | [] => ""
  | Some data :: _ => "data:image/png;base64," +:+ data
  | None :: rest => first_inline rest
  end.

Definition generateArtisticQR (sourceImage : option string) (text : string)
    : client outcome :=
  if falsy sourceImage || falsy (Some text) then Return NotStarted
  else
    FetchPostLinks text (λ linkRes,
    match json_shortUrl linkRes with
    | None => Throw "Unexpected token"
    | Some shortUrl =>
    GenerateContent (default "" sourceImage) (λ stylizeResponse,
    match stylizeResponse with
    | inl message => Throw message
    | inr parts =>
    let stylizedImageBase64 := first_inline parts in
    if decide (stylizedImageBase64 = "")
    then Throw "AI failed to stylize the image. Please try again."
    else
    QRCodeCreate shortUrl "H" (λ qr,
    match qr with
    | inl message => Throw message
    | inr modules =>
    GetContext2d (λ ctx,
    if negb ctx then Return NoContext
    else
    LoadImage stylizedImageBase64 (λ bgImg,
    match bgImg with
    | None => Throw ""
    | Some bgImg => Return (ResultImage (composite bgImg modules))
    end))
    end)
    end)
    end).

(** What answers the requests: the server (with its configuration and what
    it reads from outside), the stylizer, the qrcode package, the browser. *)
Record world := World {
  server_config : config;
  server_oracle : oracle;
  generateContent : string → string + list (option string);
  QRCode_create : string → string → string + bit_matrix;
  getContext : bool;
  decode_image : string → option image
}.

Inductive call :=
| CalledPostLinks (targetUrl : string) (r : response)
| CalledGenerateContent (sourceImage : string)
| CalledQRCodeCreate (text : option string) (errorCorrectionLevel : string)
| CalledGetContext
| CalledLoadImage (src : string).

(** Running a program against a world and the server's database: the
    database after, the calls made in order, and the value returned or the
    message thrown. *)
Fixpoint run {A : Type} (w : world) (p : client A) (d : db)
    : db * list call * (string + A) :=
  match p with
  | Return a => (d, [], inr a)
  | Throw message => (d, [], inl message)
  | FetchPostLinks targetUrl k =>
      let '(d1, r) := handle (server_config w) (server_oracle w)
                        (PostLinks (Some targetUrl)) d in
      let '(d2, calls, res) := run w (k r) d1 in
      (d2, CalledPostLinks targetUrl r :: calls, res)
  | GenerateContent sourceImage k =>
      let '(d2, calls, res) := run w (k (generateContent w sourceImage)) d in
      (d2, CalledGenerateContent sourceImage :: calls, res)
  | QRCodeCreate text level k =>
      let qr := match text with
                | Some t => QRCode_create w t level
                | None => inl "No input text"
                end in
      let '(d2, calls, res) := run w (k qr) d in
      (d2, CalledQRCodeCreate text level :: calls, res)
  | GetContext2d k =>
      let '(d2, calls, res) := run w (k (getContext w)) d in
      (d2, CalledGetContext :: calls, res)
  | LoadImage src k =>
      let '(d2, calls, res) := run w (k (decode_image w src)) d in
      (d2, CalledLoadImage src :: calls, res)
  end.

(** The try/catch of generateArtisticQR: a thrown message becomes the error
    shown ([err.message || 'Failed to generate artistic QR code.']). *)
Definition generate (w : world) (sourceImage : option string) (text : string)
    (d : db) : db * list call * outcome :=
  let '(d', calls, res) := run w (generateArtisticQR sourceImage text) d in
  (d', calls,
   match res with
   | inr o => o
   | inl message => ErrorMessage (or_default (Some message) "Failed to generate artistic QR code.")
   end).

(** ** The dashboard of App.tsx (fetchLinks, fetchDetailedAnalytics,
    deleteLink, and what the page computes from linksData) *)

(** The two pieces of React state the dashboard reads; each holds whatever
    JSON body the server answered. *)
Record dashboard := Dashboard { linksData : option body; selectedLink : option body }.

(** [res.ok]: a status from 200 to 299. *)
Definition response_ok (r : response) : bool :=
  match r with
  | Json status _ | Send status _ => bool_decide (200 ≤ status ≤ 299)
  | Redirect _ => false
  | Uncaught => false
  | Page => true
  end.

(** [await res.json()]: the body, or [None] when json() rejects. *)
Definition response_json (r : response) : option body :=
  match r with
  | Json _ data => Some data
  | _ => None
  end.

(** App.tsx 78-86: the body answered becomes linksData whatever the status;
    when json() rejects the catch leaves the state as it was. *)
Definition fetchLinks (cfg : config) (o : oracle) (d : db) (st : dashboard) : dashboard :=
  match response_json (handle cfg o GetLinks d).2 with
  | Some data => Dashboard (Some data) (selectedLink st)
  | None => st
  end.

(** App.tsx 88-98 *)
Definition fetchDetailedAnalytics (cfg : config) (o : oracle) (i : string) (d : db)
    (st : dashboard) : dashboard :=
  match response_json (handle cfg o (GetAnalytics i) d).2 with
  | Some data => Dashboard (linksData st) (Some data)
  | None => st
  end.

(** [selectedLink?.link.id === id]: [None] when reading .id of an undefined
    link throws. *)
Definition selected_is (st : dashboard) (i : string) : option bool :=
  match selectedLink st with
  | None => Some false
  | Some (JAnalytics l _ _) => Some (bool_decide (id l = i))
  | Some _ => None
  end.

(** App.tsx 101-112, with the answer of confirm() and the two clock
    readings of the server. *)
Definition deleteLink (cfg : config) (o1 o2 : oracle) (confirmed : bool) (i : string)
    (d : db) (st : dashboard) : db * dashboard :=
  if negb confirmed then (d, st)
  else
    let '(d1, res) := handle cfg o1 (DeleteLinks i) d in
    if response_ok res then
      match selected_is st i with
      | None => (d1, st)
      | Some same =>
          let st := if same then Dashboard (linksData st) None else st in
          (d1, fetchLinks cfg o2 d1 st)
      end
    else (d1, st).

(** App.tsx 530: [linksData && !linksData.isPro && linksData.hiddenCount > 0] *)
Definition hidden_banner (st : dashboard) : bool :=
  match linksData st with
  | Some (JLinks isPro _ _ hiddenCount) => negb isPro && bool_decide (0 < hiddenCount)
  | _ => false
  end.

(** App.tsx 484: [linksData?.links.reduce((acc, curr) => acc + curr.scan_count, 0) || 0];
    [None] when reduce is read off an undefined links. *)
Definition total_scans_shown (st : dashboard) : option nat :=
  match linksData st with
  | None => Some 0
  | Some (JLinks _ ls _ _) => Some (foldl (λ acc curr, acc + scan_count curr) 0 ls)
  | Some _ => None
  end.

(** App.tsx 480: [linksData?.totalCount || 0] *)
Definition total_codes_shown (st : dashboard) : nat :=
  match linksData st with
  | Some (JLinks _ _ totalCount _) => totalCount
  | _ => 0
  end.

(** The calls to the QR encoder among the calls made. *)
Definition qr_calls (calls : list call) : list (option string * string) :=
  omap (λ c, match c with
             | CalledQRCodeCreate text level => Some (text, level)
             | _ => None
             end) calls.

(** ** The words of the compositor's claims *)

(** The three 7 by 7 corner regions: rows 0-6 and columns 0-6, rows 0-6 and
    the last 7 columns, the last 7 rows and columns 0-6. *)
Definition finder_region (moduleCount row col : nat) : Prop :=
  (row ≤ 6 ∧ col ≤ 6)
  ∨ (row ≤ 6 ∧ moduleCount ≤ col + 7)
  ∨ (moduleCount ≤ row + 7 ∧ col ≤ 6).

(** The filled circle of a cell: centre at the cell's midpoint, radius
    0.18 * scale, black or white at 90% opacity. *)
Definition dot_of (modules : bit_matrix) (scale : Q) (cell : nat * nat) : paint :=
  let '(row, col) := cell in
  FillPath
    [ArcSeg (num col * scale + scale / 2) (num row * scale + scale / 2)
            ((18 # 100) * scale) 0 2]
    (if get modules row col then "rgba(0,0,0,0.9)" else "rgba(255,255,255,0.9)").

Definition black : rgba := Rgba 0 0 0 1.
Definition white : rgba := Rgba 255 255 255 1.

(** The nested squares of a finder pattern, at the point (u, v) of its
    7 by 7 block in module units: the 3 by 3 core is black, the rest of
    the 5 by 5 square around it white, the rest black. *)
Definition finder_pattern (u v : Q) : rgba :=
  if in_box 2 2 3 3 u v then black
  else if in_box 1 1 5 5 u v then white
  else black.

(** The three squares of one finder pattern, and the nine of the three. *)
Definition finder_squares (scale x y : Q) : list paint :=
  [FillRect (x * scale) (y * scale) (7 * scale) (7 * scale) "black";
   FillRect ((x + 1) * scale) ((y + 1) * scale) (5 * scale) (5 * scale) "white";
   FillRect ((x + 2) * scale) ((y + 2) * scale) (3 * scale) (3 * scale) "black"].

Definition all_finder_squares (scale moduleCount : Q) : list paint :=
  finder_squares scale 0 0
  ++ finder_squares scale (moduleCount - 7) 0
  ++ finder_squares scale 0 (moduleCount - 7).

(** The cells of the matrix, row by row. *)
Definition cells (moduleCount : nat) : list (nat * nat) :=
  row ← seq 0 moduleCount; col ← seq 0 moduleCount; [(row, col)].

(** The cells of a block of the matrix, row by row. *)
Definition block (row0 rows col0 cols : nat) : list (nat * nat) :=
  row ← seq row0 rows; col ← seq col0 cols; [(row, col)].

(** ** Values used in the examples *)

(** An encodeUrl for the examples: a byte outside the characters that
    encodeurl leaves alone becomes a per cent sign and two hexadecimal
    digits; a per cent sign stays when two hexadecimal digits follow it. *)
Definition url_safe (a : Ascii.ascii) : bool :=
  let n := Ascii.nat_of_ascii a in
  (n =? 33) || (35 <=? n) && (n <=? 59) || (n =? 61) || (63 <=? n) && (n <=? 95)
  || (97 <=? n) && (n <=? 122) || (n =? 124) || (n =? 126).

Definition is_hex (a : Ascii.ascii) : bool :=
  let n := Ascii.nat_of_ascii a in
  (48 <=? n) && (n <=? 57) || (65 <=? n) && (n <=? 70) || (97 <=? n) && (n <=? 102).

Definition hex_digit (n : nat) : Ascii.ascii :=
  Ascii.ascii_of_nat (if n <? 10 then 48 + n else 55 + n).

Fixpoint encode_url (s : string) : string :=
  match s with
  | EmptyString => EmptyString
  | String a rest =>
      let n := Ascii.nat_of_ascii a in
      if n =? 37 then
        match rest with
        | String h1 (String h2 _) =>
            if is_hex h1 && is_hex h2 then String a (encode_url rest)
            else "%25" +:+ encode_url rest
        | _ => "%25" +:+ encode_url rest
        end
      else if url_safe a then String a (encode_url rest)
      else String (Ascii.ascii_of_nat 37) (String (hex_digit (n `div` 16))
                         (String (hex_digit (n `mod` 16)) (encode_url rest)))
  end.

Definition cfg0 : config :=
  Config None None (λ _ _ _, inl "No signatures found") encode_url.

Definition at_time (y mo dd h mi s : nat) (fresh : string) : oracle :=
  Oracle (DateTime y mo dd h mi s) fresh (inr None).

Definition o0 : oracle := at_time 2024 1 1 9 0 0 "abc".

(** The fresh database after one POST /api/links. *)
Definition db_one : db := (handle cfg0 o0 (PostLinks (Some "https://google.com")) fresh_db).1.

(** The fresh database after a POST whose target is the word back, and
    after one whose target holds a space. *)
Definition db_back : db := (handle cfg0 o0 (PostLinks (Some "back")) fresh_db).1.

Definition db_space : db :=
  (handle cfg0 o0 (PostLinks (Some "https://a.example/x y")) fresh_db).1.

(** Then two scans of abc. *)
Definition db_scanned : db :=
  (handle cfg0 o0 (GetS "abc" None None)
     (handle cfg0 o0 (GetS "abc" (Some "curl/8.0") None) db_one).1).1.

(** A run of requests, each with what it reads from outside. *)
Definition run_requests (cfg : config) (steps : list (oracle * request)) (d : db) : db :=
  foldl (λ acc step, (handle cfg step.1 step.2 acc).1) d steps.

(** A signature check that accepts any signed body and reads the event type
    off the body. *)
Definition cfg_paid : config :=
  Config None (Some "whsec_test")
    (λ rawBody sig _,
       match sig with
       | Some _ => inr (StripeEvent rawBody)
       | None => inl "No stripe-signature header value was provided."
       end)
    encode_url.

Definition paid : request := PostWebhook "checkout.session.completed" (Some "t=1,v1=0").

(** Five links, created in the order l1 ... l5. *)
Definition db_five : db :=
  run_requests cfg_paid
    [(at_time 2024 1 1 9 0 0 "l1", PostLinks (Some "https://a.example"));
     (at_time 2024 1 1 9 0 5 "l2", PostLinks (Some "https://b.example"));
     (at_time 2024 1 2 8 0 0 "l3", PostLinks (Some "https://c.example"));
     (at_time 2024 2 1 0 0 0 "l4", PostLinks (Some "https://d.example"));
     (at_time 2025 1 1 0 0 0 "l5", PostLinks (Some "https://e.example"))]
    fresh_db.

Definition db_five_pro : db := (handle cfg_paid o0 paid db_five).1.

(** One link, scanned twice on 2024-01-01 and once on 2024-01-03. *)
Definition db_dates : db :=
  run_requests cfg0
    [(at_time 2024 1 1 9 0 0 "abc", PostLinks (Some "https://google.com"));
     (at_time 2024 1 1 9 30 0 "", GetS "abc" (Some "curl/8.0") None);
     (at_time 2024 1 3 10 0 0 "", GetS "abc" None None);
     (at_time 2024 1 1 23 59 59 "", GetS "abc" (Some "Mozilla/5.0") None)]
    fresh_db.

(** A 21 by 21 matrix, a plain background, and a world in which every
    collaborator answers. *)
Definition modules21 : bit_matrix := BitMatrix 21 (λ row col, Nat.even (row + col)).

Definition grey : image := λ _ _, Rgba 128 128 128 1.

Definition world0 : world :=
  World cfg0 o0 (λ _, inr [None; Some "iVBORw0KGgo="])
        (λ _ _, inr modules21) true (λ _, Some grey).

(** * Theorems *)

(** ** resolveLink (GET /s/:id) *)

Lemma select_link_Some i d l :
  select_link i d = Some l ↔ ∃ c, links d !! i = Some c ∧ l = link_row i c.
Proof.
  unfold select_link. destruct (links d !! i) as [c|]; simpl; split.
  - intros [= <-]. eauto.
  - intros (c' & [= <-] & ->). done.
  - done.
  - intros (c' & [=] & _).
Qed.

Lemma select_link_None i d : select_link i d = None ↔ links d !! i = None.
Proof. unfold select_link. destruct (links d !! i); simpl; split; done. Qed.

Example db_one_links : select_link "abc" db_one
  = Some (Link "abc" "https://google.com" (DateTime 2024 1 1 9 0 0)).
Proof. vm_compute. reflexivity. Qed.

Lemma post_links_created cfg o u d d1 i short :
  handle cfg o (PostLinks (Some u)) d = (d1, Json 200 (JCreated i short)) →
  u ≠ "" ∧ i = shortid_generate o ∧ short = base_url cfg +:+ "/s/" +:+ i ∧
  links d !! i = None ∧
  d1 = Db (<[i := LinkCols u (now o)]> (links d)) (scans d) (scans_seq d) (settings d).
Proof.
  simpl. unfold post_links, insert_link. simpl.
  case_bool_decide as Hu; [done|].
  destruct (links d !! shortid_generate o) eqn:Hl; [done|].
  intros [= <- <- <-]. done.
Qed.

(** C4, as the code has it: resolving an existing id answers a redirect
    whose Location is the URL-encoded stored target_url (of the Referer, or
    of /, when the stored target is the word back) and appends exactly one
    scan row, for that id, stamped with the clock, carrying the User-Agent
    header when it is present and not empty and the text unknown when it is
    absent or empty; resolving an id that is not stored answers 404 and
    leaves the database as it was; a link created for u resolves to
    exactly u when u is not the word back and URL-encoding leaves u as it
    is. *)
Theorem resolveLink_contract (cfg : config) (o : oracle) (d : db) (i : string)
    (ua ref : option string) :
  (∀ c, links d !! i = Some c →
     ∃ e, handle cfg o (GetS i ua ref) d
            = (Db (links d) (scans d ++ [e]) (S (scans_seq d)) (settings d),
               Redirect (encodeUrl cfg
                           (if decide (lc_target_url c = "back")
                            then or_default ref "/" else lc_target_url c)))
          ∧ link_id e = i ∧ scanned_at e = now o
          ∧ (∀ s, ua = Some s → s ≠ "" → user_agent e = s)
          ∧ (ua = None ∨ ua = Some "" → user_agent e = "unknown"))
  ∧ (links d !! i = None →
     handle cfg o (GetS i ua ref) d = (d, Send 404 "Link not found"))
  ∧ (∀ cfg1 o1 u d0 short,
       handle cfg1 o1 (PostLinks (Some u)) d0 = (d, Json 200 (JCreated i short)) →
       u ≠ "back" → encodeUrl cfg u = u →
       ∃ e, handle cfg o (GetS i ua ref) d
              = (Db (links d) (scans d ++ [e]) (S (scans_seq d)) (settings d), Redirect u)
            ∧ link_id e = i).
Proof.
  assert (Hfound : ∀ c, links d !! i = Some c →
     handle cfg o (GetS i ua ref) d
       = (Db (links d) (scans d ++ [Scan (S (scans_seq d)) i (now o) (or_default ua "unknown")])
             (S (scans_seq d)) (settings d),
          Redirect (encodeUrl cfg
                      (if decide (lc_target_url c = "back")
                       then or_default ref "/" else lc_target_url c)))).
  { intros c Hc. simpl. unfold get_s, select_link. rewrite Hc. reflexivity. }
  split; [|split].
  - intros c Hc. eexists. split; [apply Hfound, Hc|]. simpl.
    repeat split.
    + intros s -> Hs. simpl. by destruct (decide (s = "")).
    + intros [-> | ->]; reflexivity.
  - intros Hn. simpl. unfold get_s, select_link. rewrite Hn. reflexivity.
  - intros cfg1 o1 u d0 short Hpost Hback Henc.
    apply post_links_created in Hpost as (_ & _ & _ & _ & Hd).
    assert (Hc : links d !! i = Some (LinkCols u (now o1))).
    { rewrite Hd. simpl. apply lookup_insert_eq. }
    eexists. split.
    { rewrite (Hfound _ Hc). simpl.
      destruct (decide (u = "back")); [done|]. by rewrite Henc. }
    reflexivity.
Qed.

Lemma resolveLink_contract_witness :
  ∃ e, handle cfg0 o0 (GetS "abc" (Some "curl/8.0") None) db_one
         = (Db (links db_one) (scans db_one ++ [e]) (S (scans_seq db_one)) (settings db_one),
            Redirect "https://google.com")
       ∧ link_id e = "abc".
Proof.
  refine (proj2 (proj2 (resolveLink_contract cfg0 o0 db_one "abc" (Some "curl/8.0") None))
            cfg0 o0 "https://google.com" fresh_db _ eq_refl _ eq_refl).
  discriminate.
Defined.

(** C4 as written fails on an empty User-Agent header (the header is
    supplied by the caller, and the stored row carries the text unknown, not
    the supplied empty string), on a link whose stored target is the word
    back (the redirect goes to the Referer, or to /), and on a target
    that URL-encoding changes (a space becomes %20). *)
Lemma resolveLink_empty_user_agent :
  (user_agent <$> last (scans (handle cfg0 o0 (GetS "abc" (Some "") None) db_one).1)
     = Some "unknown"
   ∧ user_agent <$> last (scans (handle cfg0 o0 (GetS "abc" (Some "") None) db_one).1)
     ≠ Some (default "unknown" (Some "")))
  ∧ (target_url <$> select_link "abc" db_back = Some "back"
     ∧ (handle cfg0 o0 (GetS "abc" None None) db_back).2 = Redirect "/"
     ∧ (handle cfg0 o0 (GetS "abc" None (Some "https://ref.example/p")) db_back).2
       = Redirect "https://ref.example/p")
  ∧ (target_url <$> select_link "abc" db_space = Some "https://a.example/x y"
     ∧ (handle cfg0 o0 (GetS "abc" None None) db_space).2
       = Redirect "https://a.example/x%20y").
Proof.
  split; [split; [vm_compute; reflexivity | vm_compute; discriminate]|].
  split; vm_compute; done.
Qed.

(** ** deleteLink (DELETE /api/links/:id) *)

Lemma init_schema_tables d :
  links (init_schema d) = links d ∧ scans (init_schema d) = scans d.
Proof. unfold init_schema. by destruct (settings d !! "is_pro"). Qed.

Lemma handle_scans_linked cfg o r d :
  scans_linked d → scans_linked (handle cfg o r d).1.
Proof.
  intros Hd. destruct r as [rawBody sig| | |targetUrl|i|i| |i ua ref|]; simpl.
  - unfold post_webhook. destruct (constructEvent _ _ _ _) as [msg|ev]; simpl; [done|].
    destruct (decide _); done.
  - unfold get_pro_status. by destruct (select_is_pro d).
  - unfold post_checkout. by destruct (sessions_create o).
  - unfold post_links, insert_link. destruct (falsy targetUrl); [done|].
    destruct (links d !! shortid_generate o) eqn:Hl; [done|]. simpl.
    intros s Hs. simpl in *. apply lookup_insert_is_Some'. right. by apply Hd.
  - unfold delete_links, delete_link, delete_scans. simpl.
    destruct (decide _); simpl; intros s Hs; simpl in *;
      apply list_elem_of_filter in Hs as [Hne Hs];
      (rewrite lookup_delete_ne; [by apply Hd | done]).
  - unfold get_analytics. by destruct (select_link i d).
  - unfold get_links. destruct (select_is_pro d); [|done].
    by destruct (negb _ && _).
  - unfold get_s. destruct (select_link i d) as [l|] eqn:Hl; [|done]. simpl.
    apply select_link_Some in Hl as (c & Hc & _).
    intros s Hs. simpl in *. apply elem_of_app in Hs as [Hs|Hs]; [by apply Hd|].
    apply list_elem_of_singleton in Hs as ->. simpl. by rewrite Hc.
  - done.
Qed.

Lemma reachable_scans_linked cfg d : reachable cfg d → scans_linked d.
Proof.
  induction 1 as [|o r d _ IH|d _ IH].
  - intros s Hs. vm_compute in Hs. by apply elem_of_nil in Hs.
  - by apply handle_scans_linked.
  - intros s. destruct (init_schema_tables d) as [-> ->]. apply IH.
Qed.

Lemma filter_other_links i (ss : list scan) :
  (∀ s, s ∈ ss → link_id s ≠ i) → filter (λ s, link_id s ≠ i) ss = ss.
Proof.
  induction ss as [|s ss IH]; intros H; [done|].
  rewrite filter_cons_True by (apply H; left).
  f_equal. apply IH. intros s' Hs'. apply H. by right.
Qed.

Lemma db_eta d : Db (links d) (scans d) (scans_seq d) (settings d) = d.
Proof. by destruct d. Qed.

Lemma scans_of_deleted i j (ss : list scan) :
  filter (λ s, link_id s = j) (filter (λ s, link_id s ≠ i) ss)
  = if decide (j = i) then [] else filter (λ s, link_id s = j) ss.
Proof.
  induction ss as [|s ss IH]; [by destruct (decide (j = i))|].
  destruct (decide (link_id s = i)) as [Hi|Hi].
  - rewrite (filter_cons_False _ s ss) by (by intros H; apply H).
    rewrite IH. destruct (decide (j = i)) as [->|Hj]; [done|].
    rewrite (filter_cons_False _ s ss) by congruence. done.
  - rewrite (filter_cons_True _ s ss) by done.
    destruct (decide (link_id s = j)) as [Hj|Hj].
    + rewrite !filter_cons_True by done. rewrite IH.
      destruct (decide (j = i)); [congruence|done].
    + rewrite !filter_cons_False by done. apply IH.
Qed.

(** C5, as the code has it: deleting a stored id removes every scan row of
    that id and the link row and answers success; deleting an id that is
    not stored answers 404 and, in every state the server can be in,
    changes nothing; whatever the outcome, the state after the handler has
    neither the link nor any scan of it (so the detail query answers
    404), keeps every other link and scan, and has no scan row without
    its link.  The two removals are two statements, each committed on its
    own: the database after the first has the links as before and the scans
    of the id gone, the database after the second is the state after the
    handler; a server restarted on the first answers the detail of a
    stored id with its link and no scans. *)
Theorem deleteLink_contract (cfg : config) (o : oracle) (d : db) (i : string) :
  (∀ c, links d !! i = Some c →
     handle cfg o (DeleteLinks i) d
       = (Db (delete i (links d)) (filter (λ s, link_id s ≠ i) (scans d))
             (scans_seq d) (settings d),
          Json 200 JSuccess))
  ∧ (links d !! i = None →
     (handle cfg o (DeleteLinks i) d).2 = Json 404 (JError "Link not found")
     ∧ (reachable cfg d → (handle cfg o (DeleteLinks i) d).1 = d))
  ∧ (let d' := (handle cfg o (DeleteLinks i) d).1 in
     links d' !! i = None
     ∧ scans_of i d' = []
     ∧ (∀ o', handle cfg o' (GetAnalytics i) d' = (d', Json 404 (JError "Link not found")))
     ∧ (∀ j, j ≠ i → links d' !! j = links d !! j ∧ scans_of j d' = scans_of j d)
     ∧ (reachable cfg d → scans_linked d'))
  ∧ (let mid := Db (links d) (filter (λ s, link_id s ≠ i) (scans d))
                   (scans_seq d) (settings d) in
     delete_links_commits i d = [mid; (handle cfg o (DeleteLinks i) d).1]
     ∧ ∀ c o', links d !! i = Some c →
         handle cfg o' (GetAnalytics i) (init_schema mid)
         = (init_schema mid,
            Json 200 (JAnalytics (Link i (lc_target_url c) (lc_created_at c)) [] []))).
Proof.
  assert (Hrun : handle cfg o (DeleteLinks i) d
    = (Db (delete i (links d)) (filter (λ s, link_id s ≠ i) (scans d))
          (scans_seq d) (settings d),
       match links d !! i with
       | Some _ => Json 200 JSuccess
       | None => Json 404 (JError "Link not found")
       end)).
  { simpl. unfold delete_links, delete_link, delete_scans. simpl.
    destruct (links d !! i); simpl; reflexivity. }
  split; [|split; [|split]].
  - intros c Hc. rewrite Hrun, Hc. reflexivity.
  - intros Hn. rewrite Hrun, Hn. split; [reflexivity|].
    intros Hreach. simpl.
    rewrite delete_id by done.
    rewrite filter_other_links; [apply db_eta|].
    intros s Hs Heq. apply (reachable_scans_linked _ _ Hreach) in Hs.
    rewrite Heq, Hn in Hs. by destruct Hs.
  - split; [|split; [|split; [|split]]].
    + rewrite Hrun. simpl. apply lookup_delete_eq.
    + rewrite Hrun. unfold scans_of. simpl. rewrite scans_of_deleted.
      by destruct (decide (i = i)).
    + intros o'. rewrite Hrun. simpl. unfold get_analytics, select_link. simpl.
      rewrite lookup_delete_eq. reflexivity.
    + intros j Hj. rewrite Hrun. unfold scans_of. simpl. split.
      * by apply lookup_delete_ne.
      * rewrite scans_of_deleted. by destruct (decide (j = i)).
    + intros Hreach. apply handle_scans_linked.
      by apply (reachable_scans_linked cfg).
  - split.
    + rewrite Hrun. reflexivity.
    + intros c o' Hc. simpl. unfold get_analytics, select_link.
      set (mid := Db (links d) (filter (λ s, link_id s ≠ i) (scans d))
                     (scans_seq d) (settings d)).
      destruct (init_schema_tables mid) as [Hl Hs].
      assert (Hno : scans_of i (init_schema mid) = []).
      { unfold scans_of. rewrite Hs. simpl. rewrite scans_of_deleted.
        by destruct (decide (i = i)). }
      rewrite Hl. simpl. rewrite Hc. simpl.
      unfold select_scans, select_chart_data, scan_dates. by rewrite Hno.
Qed.

(** C5 as written fails between the two statements: on the database with
    two scans of abc, the database committed after the first statement
    still has the link abc and none of its scans, which is neither the
    state before nor the state after the deletion; a server restarted on
    it answers the detail of abc with the link and no scans. *)
Lemma deleteLink_partial_state :
  ∃ mid after,
    delete_links_commits "abc" db_scanned = [mid; after]
    ∧ after = (handle cfg0 o0 (DeleteLinks "abc") db_scanned).1
    ∧ length (scans_of "abc" db_scanned) = 2
    ∧ is_Some (links mid !! "abc") ∧ scans_of "abc" mid = []
    ∧ mid ≠ db_scanned ∧ mid ≠ after
    ∧ (handle cfg0 o0 (GetAnalytics "abc") (init_schema mid)).2
      = Json 200 (JAnalytics (Link "abc" "https://google.com" (DateTime 2024 1 1 9 0 0))
                    [] []).
Proof.
  eexists _, _. split; [reflexivity|]. split; [reflexivity|].
  split; [vm_compute; reflexivity|]. split; [by eexists|].
  split; [vm_compute; reflexivity|].
  split; [|split].
  - intros Heq. apply (f_equal (λ x, length (scans x))) in Heq.
    vm_compute in Heq. discriminate.
  - intros Heq. apply (f_equal (λ x, size (links x))) in Heq.
    vm_compute in Heq. discriminate.
  - vm_compute. reflexivity.
Qed.

Lemma db_scanned_reachable : reachable cfg0 db_scanned.
Proof. repeat apply reach_request. apply reach_fresh. Qed.

Lemma deleteLink_contract_witness :
  handle cfg0 o0 (DeleteLinks "abc") db_scanned
    = (Db (delete "abc" (links db_scanned))
          (filter (λ s, link_id s ≠ "abc") (scans db_scanned))
          (scans_seq db_scanned) (settings db_scanned),
       Json 200 JSuccess)
  ∧ (handle cfg0 o0 (DeleteLinks "zzz") db_scanned).1 = db_scanned.
Proof.
  split.
  - exact (proj1 (deleteLink_contract cfg0 o0 db_scanned "abc") _ eq_refl).
  - exact (proj2 (proj1 (proj2 (deleteLink_contract cfg0 o0 db_scanned "zzz")) eq_refl)
             db_scanned_reachable).
Defined.

(** ** ProStatus (the is_pro row of settings) *)

Lemma isPro_true d : isPro d = true ↔ settings d !! "is_pro" = Some "true".
Proof. unfold isPro, select_is_pro. by rewrite bool_decide_eq_true. Qed.

Lemma init_schema_is_pro d :
  is_Some (settings (init_schema d) !! "is_pro")
  ∧ (∀ v, settings d !! "is_pro" = Some v → init_schema d = d)
  ∧ isPro (init_schema d) = isPro d.
Proof.
  unfold init_schema, isPro, select_is_pro.
  destruct (settings d !! "is_pro") as [v|] eqn:Hv; simpl.
  - rewrite Hv. eauto.
  - rewrite lookup_insert_eq. split; [eauto|]. split; [done|].
    rewrite !bool_decide_eq_false_2; done.
Qed.

Lemma update_is_pro_true_settings d :
  settings (update_is_pro_true d) !! "is_pro"
  = (λ _, "true") <$> settings d !! "is_pro".
Proof. unfold update_is_pro_true. simpl. apply lookup_alter_eq. Qed.

Lemma update_is_pro_true_twice d :
  update_is_pro_true (update_is_pro_true d) = update_is_pro_true d.
Proof.
  unfold update_is_pro_true. simpl. f_equal.
  apply (alter_alter_eq (λ _, "true") (λ _, "true")).
Qed.

(** Every handler but the webhook leaves the settings table alone. *)
Lemma handle_settings cfg o r d :
  settings (handle cfg o r d).1 = settings d
  ∨ ∃ rawBody sig event,
      r = PostWebhook rawBody sig
      ∧ constructEvent cfg rawBody sig (or_default (STRIPE_WEBHOOK_SECRET cfg) "")
        = inr event
      ∧ ev_type event = "checkout.session.completed"
      ∧ (handle cfg o r d).1 = update_is_pro_true d.
Proof.
  destruct r as [rawBody sig| | |targetUrl|i|i| |i ua ref|]; simpl.
  - unfold post_webhook.
    destruct (constructEvent _ _ _ _) as [msg|ev] eqn:Hev; simpl; [by left|].
    destruct (decide _) as [Hty|]; [|by left].
    right. exists rawBody, sig, ev. done.
  - left. unfold get_pro_status. by destruct (select_is_pro d).
  - left. unfold post_checkout. by destruct (sessions_create o).
  - left. unfold post_links, insert_link. destruct (falsy targetUrl); [done|].
    by destruct (links d !! shortid_generate o).
  - left. unfold delete_links, delete_link, delete_scans. simpl.
    by destruct (decide _).
  - left. unfold get_analytics. by destruct (select_link i d).
  - left. unfold get_links. destruct (select_is_pro d); [|done].
    by destruct (negb _ && _).
  - left. unfold get_s. by destruct (select_link i d).
  - by left.
Qed.

Lemma reachable_has_is_pro cfg d : reachable cfg d → is_Some (settings d !! "is_pro").
Proof.
  induction 1 as [|o r d _ IH|d _ IH].
  - apply init_schema_is_pro.
  - destruct (handle_settings cfg o r d) as [->|(?&?&?&_&_&_&->)]; [done|].
    rewrite update_is_pro_true_settings. by apply fmap_is_Some.
  - apply init_schema_is_pro.
Qed.

(** C9: the flag is false in the fresh database; a request that finds it
    false and leaves it true is a webhook whose signature check gave an event
    of type checkout.session.completed, and a restart never sets it; no
    request and no restart takes it from true to false; the webhook
    handler answers received: true for such an event whatever the flag was,
    sets the flag in every state the server can be in, and a repeated event
    changes nothing more. *)
Theorem proStatus_transitions (cfg : config) :
  isPro fresh_db = false
  ∧ (∀ o r d, isPro d = false → isPro (handle cfg o r d).1 = true →
       ∃ rawBody sig event,
         r = PostWebhook rawBody sig
         ∧ constructEvent cfg rawBody sig (or_default (STRIPE_WEBHOOK_SECRET cfg) "")
           = inr event
         ∧ ev_type event = "checkout.session.completed")
  ∧ (∀ d, isPro (init_schema d) = isPro d)
  ∧ (∀ o r d, isPro d = true → isPro (handle cfg o r d).1 = true)
  ∧ (∀ o rawBody sig event d,
       constructEvent cfg rawBody sig (or_default (STRIPE_WEBHOOK_SECRET cfg) "")
         = inr event →
       ev_type event = "checkout.session.completed" →
       let d1 := (handle cfg o (PostWebhook rawBody sig) d).1 in
       (handle cfg o (PostWebhook rawBody sig) d).2 = Json 200 JReceived
       ∧ (reachable cfg d → isPro d1 = true)
       ∧ ∀ o', handle cfg o' (PostWebhook rawBody sig) d1 = (d1, Json 200 JReceived)).
Proof.
  split; [by vm_compute|]. split; [|split; [|split]].
  - intros o r d Hf Ht.
    destruct (handle_settings cfg o r d) as [Hs|(rawBody&sig&ev&?&?&?&_)].
    + unfold isPro, select_is_pro in *. rewrite Hs in Ht. congruence.
    + by exists rawBody, sig, ev.
  - intros d. apply init_schema_is_pro.
  - intros o r d Ht.
    destruct (handle_settings cfg o r d) as [Hs|(?&?&?&_&_&_&Hd)].
    + unfold isPro, select_is_pro in *. by rewrite Hs.
    + rewrite Hd. apply isPro_true. rewrite update_is_pro_true_settings.
      apply isPro_true in Ht. by rewrite Ht.
  - intros o rawBody sig ev d Hev Hty. simpl. unfold post_webhook.
    rewrite Hev. simpl. destruct (decide _) as [_|]; [|done].
    split; [done|]. split.
    + intros Hr. apply isPro_true. rewrite update_is_pro_true_settings.
      destruct (reachable_has_is_pro _ _ Hr) as [v ->]. done.
    + intros o'. by rewrite update_is_pro_true_twice.
Qed.

(** ** The orders on timestamps and dates *)

Lemma datetime_le_refl a : datetime_le a a.
Proof. unfold datetime_le. lia. Qed.

Lemma datetime_le_trans a b c : datetime_le a b → datetime_le b c → datetime_le a c.
Proof. unfold datetime_le. lia. Qed.

Lemma datetime_le_total a b : datetime_le a b ∨ datetime_le b a.
Proof. unfold datetime_le. lia. Qed.

Lemma datetime_le_antisym a b : datetime_le a b → datetime_le b a → a = b.
Proof.
  destruct a, b. unfold datetime_le. simpl. intros H1 H2.
  f_equal; lia.
Qed.

Lemma datetime_lt_le a b : datetime_lt a b → datetime_le a b.
Proof. unfold datetime_lt, datetime_le. lia. Qed.

Lemma datetime_lt_not_le a b : datetime_lt a b → ¬ datetime_le b a.
Proof. unfold datetime_lt, datetime_le. lia. Qed.

Lemma date_le_trans a b c : date_le a b → date_le b c → date_le a c.
Proof. unfold date_le. lia. Qed.

Lemma date_le_total a b : date_le a b ∨ date_le b a.
Proof. unfold date_le. lia. Qed.

Lemma date_le_antisym a b : date_le a b → date_le b a → a = b.
Proof.
  destruct a, b. unfold date_le. simpl. intros H1 H2. f_equal; lia.
Qed.

Lemma date_le_neq_lt a b : date_le a b → a ≠ b → date_lt a b.
Proof.
  intros Hle Hne. destruct (decide (date_lt a b)) as [|Hn]; [done|].
  exfalso. apply Hne. apply date_le_antisym; [done|].
  revert Hle Hn. unfold date_le, date_lt. lia.
Qed.

Lemma date_of_mono a b : datetime_le a b → date_le (date_of a) (date_of b).
Proof. unfold datetime_le, date_le, date_of. simpl. lia. Qed.

Global Instance newer_scan_total : Total newer_scan.
Proof. intros a b. apply datetime_le_total. Qed.
Global Instance newer_scan_trans : Transitive newer_scan.
Proof. intros a b c H1 H2. by apply (datetime_le_trans _ (scanned_at b)). Qed.
Global Instance newer_link_total : Total newer_link.
Proof. intros a b. apply datetime_le_total. Qed.
Global Instance newer_link_trans : Transitive newer_link.
Proof. intros a b c H1 H2. by apply (datetime_le_trans _ (created_at (lk b))). Qed.
Global Instance earlier_row_total : Total earlier_row.
Proof. intros a b. apply date_le_total. Qed.
Global Instance earlier_row_trans : Transitive earlier_row.
Proof. intros a b c. apply date_le_trans. Qed.

(** ** listLinks (the query of GET /api/links) *)

Lemma select_links_perm d :
  select_links d ≡ₚ join_count d <$> map_to_list (links d).
Proof. apply merge_sort_Permutation. Qed.

Lemma select_links_sorted d : StronglySorted newer_link (select_links d).
Proof. apply StronglySorted_merge_sort; apply _. Qed.

Lemma elem_of_select_links d e :
  e ∈ select_links d ↔
  ∃ i c, links d !! i = Some c ∧ e = LinkCount (link_row i c) (length (scans_of i d)).
Proof.
  rewrite select_links_perm, list_elem_of_fmap. split.
  - intros ([i c] & -> & Hin). apply elem_of_map_to_list in Hin. by exists i, c.
  - intros (i & c & Hl & ->). exists (i, c). split; [done|].
    by apply elem_of_map_to_list.
Qed.

Lemma select_links_ids d :
  (λ e, id (lk e)) <$> select_links d ≡ₚ (map_to_list (links d)).*1.
Proof.
  rewrite select_links_perm, <- list_fmap_compose.
  replace ((λ e, id (lk e)) ∘ join_count d <$> map_to_list (links d))
    with ((map_to_list (links d)).*1); [done|].
  apply list_fmap_ext. by intros _ [i c] _.
Qed.

(** A literal list is sorted when each element relates to the later ones. *)
Ltac sorted_literal :=
  repeat first [ apply SSorted_nil | apply SSorted_cons
               | apply List.Forall_nil | apply List.Forall_cons ].

Lemma StronglySorted_mono {A} (R R' : relation A) (l : list A) :
  (∀ x y, R x y → R' x y) → StronglySorted R l → StronglySorted R' l.
Proof.
  intros HR. induction 1 as [|a l _ IH Ha]; constructor; [done|].
  eapply Forall_impl; [exact Ha|]. intros y. apply HR.
Qed.

(** A list in strictly descending order of creation is the only arrangement
    of its rows in descending order. *)
Lemma strictly_newer_unique (expected l : list link_count) :
  StronglySorted strictly_newer_link expected →
  StronglySorted newer_link l → l ≡ₚ expected → l = expected.
Proof.
  intros Hs Hl Hp.
  assert (Hinj : ∀ x y, x ∈ expected → y ∈ expected →
            created_at (lk x) = created_at (lk y) → x = y).
  { clear Hl Hp l. induction Hs as [|a l Hs IH Ha]; intros x y Hx Hy Heq.
    { by apply elem_of_nil in Hx. }
    rewrite Forall_forall in Ha. unfold strictly_newer_link in Ha.
    apply elem_of_cons in Hx as [->|Hx]; apply elem_of_cons in Hy as [->|Hy].
    - done.
    - apply Ha in Hy. rewrite Heq in Hy. revert Hy. unfold datetime_lt. lia.
    - apply Ha in Hx. rewrite Heq in Hx. revert Hx. unfold datetime_lt. lia.
    - by apply IH. }
  apply (StronglySorted_unique_strong newer_link); [|done| |done].
  - intros x y Hx Hy H1 H2. apply Hinj; [by rewrite <- Hp|done|].
    by apply datetime_le_antisym.
  - eapply StronglySorted_mono; [|exact Hs].
    intros x y. apply datetime_lt_le.
Qed.

(** C7: the listing has one entry per stored link (no id twice, as many
    entries as links, each the stored row), newest creation first, each
    entry with the number of scan rows stored for its link at the time of
    the query, 0 for a link without scans; three links created at
    t1 < t2 < t3 are listed as t3, t2, t1. *)
Theorem listLinks_contract (d : db) :
  NoDup ((λ e, id (lk e)) <$> select_links d)
  ∧ length (select_links d) = size (links d)
  ∧ (∀ e, e ∈ select_links d ↔
       ∃ i c, links d !! i = Some c
              ∧ e = LinkCount (Link i (lc_target_url c) (lc_created_at c))
                      (length (filter (λ s, link_id s = i) (scans d))))
  ∧ StronglySorted (λ a b, datetime_le (created_at (lk b)) (created_at (lk a)))
      (select_links d)
  ∧ (∀ i c, links d !! i = Some c → (∀ s, s ∈ scans d → link_id s ≠ i) →
       LinkCount (Link i (lc_target_url c) (lc_created_at c)) 0 ∈ select_links d)
  ∧ (∀ i1 i2 i3 u1 u2 u3 t1 t2 t3,
       i1 ≠ i2 → i1 ≠ i3 → i2 ≠ i3 →
       datetime_lt t1 t2 → datetime_lt t2 t3 →
       links d = <[i3 := LinkCols u3 t3]> (<[i2 := LinkCols u2 t2]>
                   (<[i1 := LinkCols u1 t1]> ∅)) →
       lk <$> select_links d = [Link i3 u3 t3; Link i2 u2 t2; Link i1 u1 t1]).
Proof.
  split; [|split; [|split; [|split; [|split]]]].
  - rewrite select_links_ids. apply NoDup_fst_map_to_list.
  - rewrite select_links_perm, length_fmap. apply length_map_to_list.
  - apply elem_of_select_links.
  - apply select_links_sorted.
  - intros i c Hc Hno. apply elem_of_select_links. exists i, c. split; [done|].
    unfold link_row. f_equal. unfold scans_of.
    induction (scans d) as [|s ss IH]; [done|].
    rewrite filter_cons_False by (apply Hno; left).
    apply IH. intros s' Hs'. apply Hno. by right.
  - intros i1 i2 i3 u1 u2 u3 t1 t2 t3 H12 H13 H23 Hlt12 Hlt23 Hlinks.
    set (e1 := join_count d (i1, LinkCols u1 t1)).
    set (e2 := join_count d (i2, LinkCols u2 t2)).
    set (e3 := join_count d (i3, LinkCols u3 t3)).
    assert (Hsel : select_links d = [e3; e2; e1]).
    { apply strictly_newer_unique.
      - assert (Hlt13 : datetime_lt t1 t3)
          by (revert Hlt12 Hlt23; unfold datetime_lt; lia).
        sorted_literal; unfold strictly_newer_link; simpl; done.
      - apply select_links_sorted.
      - rewrite select_links_perm, Hlinks.
        rewrite map_to_list_insert
          by (rewrite !lookup_insert_ne by done; apply lookup_empty).
        rewrite map_to_list_insert
          by (rewrite !lookup_insert_ne by done; apply lookup_empty).
        rewrite map_to_list_insert by apply lookup_empty.
        rewrite map_to_list_empty. done. }
    rewrite Hsel. reflexivity.
Qed.

(** ** getDetail (GET /api/analytics/:id) *)

Lemma select_scans_perm i d : select_scans i d ≡ₚ scans_of i d.
Proof. apply merge_sort_Permutation. Qed.

Lemma select_scans_sorted i d : StronglySorted newer_scan (select_scans i d).
Proof. apply StronglySorted_merge_sort; apply _. Qed.

Lemma count_dates i g (ss : list scan) :
  length (filter (λ x, x = g)
            ((λ s, date_of (scanned_at s)) <$> filter (λ s, link_id s = i) ss))
  = length (filter (λ s, link_id s = i ∧ date_of (scanned_at s) = g) ss).
Proof.
  induction ss as [|s ss IH]; [done|].
  destruct (decide (link_id s = i)) as [Hi|Hi].
  - rewrite (filter_cons_True (λ s, link_id s = i)) by done. rewrite fmap_cons.
    destruct (decide (date_of (scanned_at s) = g)) as [Hg|Hg].
    + rewrite !filter_cons_True by done. simpl. by rewrite IH.
    + rewrite !filter_cons_False by tauto. done.
  - rewrite (filter_cons_False (λ s, link_id s = i)) by done.
    rewrite (filter_cons_False (λ s, _ ∧ _)) by tauto. done.
Qed.

Lemma filter_eq_length_pos {A} `{EqDecision A} (g : A) (l : list A) :
  g ∈ l ↔ 0 < length (filter (λ x, x = g) l).
Proof.
  induction l as [|a l IH].
  - split; [by intros ?%elem_of_nil|simpl; lia].
  - destruct (decide (a = g)) as [->|Ha].
    + rewrite filter_cons_True by done. simpl. split; [lia|]. intros _. by left.
    + rewrite filter_cons_False by done. rewrite <- IH, elem_of_cons.
      split; [intros [?|?]; [congruence|done]|by right].
Qed.

Lemma elem_of_group_by_date ds r :
  r ∈ group_by_date ds ↔
  date r ∈ ds ∧ count r = length (filter (λ x, x = date r) ds).
Proof.
  unfold group_by_date. rewrite list_elem_of_fmap. split.
  - intros (g & -> & Hg). rewrite elem_of_remove_dups in Hg. simpl. done.
  - intros [Hg Hn]. exists (date r). rewrite elem_of_remove_dups.
    split; [|done]. destruct r. simpl in *. by rewrite Hn.
Qed.

Lemma group_by_date_NoDup ds : NoDup (date <$> group_by_date ds).
Proof.
  unfold group_by_date. rewrite <- list_fmap_compose.
  rewrite (list_fmap_ext _ Datatypes.id (remove_dups ds)) by done.
  rewrite list_fmap_id. apply NoDup_remove_dups.
Qed.

(** Ascending without a repeated date is strictly ascending. *)
Lemma sorted_NoDup_strict (l : list chart_row) :
  StronglySorted earlier_row l → NoDup (date <$> l) →
  StronglySorted strictly_earlier_row l.
Proof.
  induction 1 as [|a l _ IH Ha]; intros Hnd; [constructor|].
  rewrite fmap_cons in Hnd. apply NoDup_cons in Hnd as [Hna Hnd].
  constructor; [by apply IH|].
  rewrite Forall_forall in Ha. apply Forall_forall. intros b Hb.
  apply date_le_neq_lt; [by apply Ha|].
  intros Heq. apply Hna. rewrite Heq. apply list_elem_of_fmap. by exists b.
Qed.

Lemma select_chart_data_perm i d :
  select_chart_data i d ≡ₚ group_by_date (scan_dates i d).
Proof. apply merge_sort_Permutation. Qed.

Lemma select_chart_data_sorted i d :
  StronglySorted strictly_earlier_row (select_chart_data i d).
Proof.
  apply sorted_NoDup_strict.
  - apply StronglySorted_merge_sort; apply _.
  - rewrite select_chart_data_perm. apply group_by_date_NoDup.
Qed.

Lemma elem_of_select_chart_data i d r :
  r ∈ select_chart_data i d ↔
  0 < count r
  ∧ count r = length (filter (λ s, link_id s = i ∧ date_of (scanned_at s) = date r)
                        (scans d)).
Proof.
  rewrite select_chart_data_perm, elem_of_group_by_date.
  unfold scan_dates, scans_of. rewrite count_dates, filter_eq_length_pos, count_dates.
  split; intros [H1 H2]; split; (done || by rewrite H2 || by rewrite <- H2).
Qed.

Lemma strictly_earlier_unique (l1 l2 : list chart_row) :
  StronglySorted strictly_earlier_row l1 → StronglySorted strictly_earlier_row l2 →
  (∀ r, r ∈ l1 ↔ r ∈ l2) → l1 = l2.
Proof.
  assert (Hnd : ∀ l, StronglySorted strictly_earlier_row l → NoDup l).
  { induction 1 as [|a l _ IH Ha]; constructor; [|done].
    intros Hin. rewrite Forall_forall in Ha. apply Ha in Hin.
    revert Hin. unfold strictly_earlier_row, date_lt. lia. }
  intros H1 H2 Hiff.
  apply (StronglySorted_unique_strong strictly_earlier_row); [|done|done|].
  - intros x y _ _. unfold strictly_earlier_row, date_lt. lia.
  - apply NoDup_Permutation; auto.
Qed.

(** C8: for a stored id the detail query answers the stored row, the scan
    rows of that id (all of them, nothing else) newest first, and the chart
    rows: strictly ascending by date, hence one row per date, a row for a
    date exactly when some scan of the id has that date, counting the scans
    of that date; scans on 2024-01-01 (twice) and 2024-01-03 (once) give
    exactly the two rows of the example; an id that is not stored answers
    404. *)
Theorem getDetail_contract (cfg : config) (o : oracle) (d : db) (i : string) :
  (∀ c, links d !! i = Some c →
     handle cfg o (GetAnalytics i) d
       = (d, Json 200 (JAnalytics (Link i (lc_target_url c) (lc_created_at c))
                         (select_scans i d) (select_chart_data i d))))
  ∧ select_scans i d ≡ₚ filter (λ s, link_id s = i) (scans d)
  ∧ StronglySorted (λ a b, datetime_le (scanned_at b) (scanned_at a)) (select_scans i d)
  ∧ StronglySorted (λ a b, date_lt (date a) (date b)) (select_chart_data i d)
  ∧ (∀ g n, ChartRow g n ∈ select_chart_data i d ↔
       0 < n ∧ n = length (filter (λ s, link_id s = i ∧ date_of (scanned_at s) = g)
                             (scans d)))
  ∧ ((λ s, date_of (scanned_at s)) <$> filter (λ s, link_id s = i) (scans d)
       ≡ₚ [Date 2024 1 1; Date 2024 1 1; Date 2024 1 3] →
     select_chart_data i d = [ChartRow (Date 2024 1 1) 2; ChartRow (Date 2024 1 3) 1]
     ∧ (λ r, (date_text (date r), count r)) <$> select_chart_data i d
       = [("2024-01-01", 2); ("2024-01-03", 1)])
  ∧ (links d !! i = None →
     handle cfg o (GetAnalytics i) d = (d, Json 404 (JError "Link not found"))).
Proof.
  split; [|split; [|split; [|split; [|split; [|split]]]]].
  - intros c Hc. simpl. unfold get_analytics, select_link. rewrite Hc. reflexivity.
  - apply select_scans_perm.
  - apply select_scans_sorted.
  - apply select_chart_data_sorted.
  - intros g n. apply (elem_of_select_chart_data i d (ChartRow g n)).
  - intros Hp.
    assert (Hc : select_chart_data i d
                 = [ChartRow (Date 2024 1 1) 2; ChartRow (Date 2024 1 3) 1]).
    { apply strictly_earlier_unique.
      - apply select_chart_data_sorted.
      - sorted_literal. unfold strictly_earlier_row, date_lt. simpl. lia.
      - intros [g n]. rewrite select_chart_data_perm, elem_of_group_by_date.
        unfold scan_dates, scans_of. simpl. rewrite Hp.
        rewrite !elem_of_cons, elem_of_nil. split.
        + intros [[->|[->|[->|[]]]] ->]; vm_compute; auto.
        + intros [Heq|[Heq|Hf]]; [| |by apply elem_of_nil in Hf];
            injection Heq as Hg Hn; subst g n;
            (split; [auto 6|vm_compute; reflexivity]). }
    rewrite Hc. split; [done|]. vm_compute. reflexivity.
  - intros Hn. simpl. unfold get_analytics, select_link. rewrite Hn. reflexivity.
Qed.

Lemma getDetail_contract_witness :
  select_chart_data "abc" db_dates
    = [ChartRow (Date 2024 1 1) 2; ChartRow (Date 2024 1 3) 1]
  ∧ (λ r, (date_text (date r), count r)) <$> select_chart_data "abc" db_dates
    = [("2024-01-01", 2); ("2024-01-03", 1)].
Proof.
  apply (getDetail_contract cfg0 o0 db_dates "abc").
  vm_compute. apply perm_skip, perm_swap.
Defined.

Example db_dates_scans :
  scan_id <$> select_scans "abc" db_dates = [2; 3; 1].
Proof. vm_compute. reflexivity. Qed.

(** ** The freemium gate (GET /api/links) *)

Lemma get_links_run cfg o d value :
  select_is_pro d = Some value →
  handle cfg o GetLinks d
  = (d, if negb (bool_decide (value = "true")) && bool_decide (2 < length (select_links d))
        then Json 200 (JLinks false (take 2 (select_links d))
                         (length (select_links d)) (length (select_links d) - 2))
        else Json 200 (JLinks true (select_links d) (length (select_links d)) 0)).
Proof.
  intros Hv. simpl. unfold get_links. rewrite Hv.
  by destruct (negb _ && _).
Qed.

(** C6: when the stored flag is not true and the listing has more than 2
    entries, the answer carries exactly its first 2 entries, which are at
    least as new as every entry left out, and hiddenCount = total - 2;
    when the flag is true or the listing has at most 2 entries, the answer
    carries the whole listing, unchanged, and hiddenCount = 0; the database
    is the same after as before. *)
Theorem freemium_gate (cfg : config) (o : oracle) (d : db) (value : string) :
  select_is_pro d = Some value →
  (value ≠ "true" → 2 < length (select_links d) →
     (∃ pro, handle cfg o GetLinks d
        = (d, Json 200 (JLinks pro (take 2 (select_links d))
                          (length (select_links d)) (length (select_links d) - 2))))
     ∧ length (take 2 (select_links d)) = 2
     ∧ (∀ a b, a ∈ take 2 (select_links d) → b ∈ drop 2 (select_links d) →
          datetime_le (created_at (lk b)) (created_at (lk a))))
  ∧ (value = "true" ∨ length (select_links d) ≤ 2 →
     ∃ pro, handle cfg o GetLinks d
       = (d, Json 200 (JLinks pro (select_links d) (length (select_links d)) 0))).
Proof.
  intros Hv. rewrite (get_links_run cfg o d value Hv). split.
  - intros Hnp Hlen.
    rewrite bool_decide_eq_false_2, bool_decide_eq_true_2 by done. simpl.
    split; [by eexists|]. split; [rewrite length_take; lia|].
    intros a b Ha Hb.
    pose proof (select_links_sorted d) as Hs.
    rewrite <- (take_drop 2 (select_links d)) in Hs.
    apply StronglySorted_app in Hs as (Hs & _ & _). by apply Hs.
  - intros [->|Hlen].
    + rewrite bool_decide_eq_true_2 by done. simpl. by eexists.
    + rewrite (bool_decide_eq_false_2 (2 < _)) by lia.
      rewrite andb_false_r. by eexists.
Qed.

Lemma freemium_gate_witness :
  (∃ pro, handle cfg_paid o0 GetLinks db_five
     = (db_five, Json 200 (JLinks pro (take 2 (select_links db_five)) 5 3)))
  ∧ ∃ pro, handle cfg_paid o0 GetLinks db_five_pro
     = (db_five_pro, Json 200 (JLinks pro (select_links db_five_pro) 5 0)).
Proof.
  split.
  - refine (proj1 (proj1 (freemium_gate cfg_paid o0 db_five "false" eq_refl) _ _)).
    + discriminate.
    + vm_compute. lia.
  - refine (proj2 (freemium_gate cfg_paid o0 db_five_pro "true" eq_refl) _).
    left. reflexivity.
Defined.

Example db_five_listing :
  (λ e, id (lk e)) <$> select_links db_five = ["l5"; "l4"; "l3"; "l2"; "l1"]
  ∧ (λ e, id (lk e)) <$> take 2 (select_links db_five) = ["l5"; "l4"].
Proof. vm_compute. done. Qed.

(** C10: whenever the answer carries the whole listing (the stored flag is
    true, or there are at most 2 links) its isPro field is true, also when
    the stored flag is not true; the field is false only on the truncated
    answer, where the stored flag is not true either. *)
Theorem listing_isPro_field (cfg : config) (o : oracle) (d : db) (value : string) :
  select_is_pro d = Some value →
  (value = "true" ∨ length (select_links d) ≤ 2 →
     handle cfg o GetLinks d
       = (d, Json 200 (JLinks true (select_links d) (length (select_links d)) 0)))
  ∧ (value ≠ "true" → length (select_links d) ≤ 2 →
     isPro d = false
     ∧ ∃ ls total hidden,
         (handle cfg o GetLinks d).2 = Json 200 (JLinks true ls total hidden))
  ∧ (∀ ls total hidden,
       (handle cfg o GetLinks d).2 = Json 200 (JLinks false ls total hidden) →
       isPro d = false ∧ 2 < length (select_links d)
       ∧ ls = take 2 (select_links d)).
Proof.
  intros Hv. rewrite (get_links_run cfg o d value Hv).
  assert (Hnp : value ≠ "true" → isPro d = false).
  { intros Hne. unfold isPro. rewrite Hv. apply bool_decide_eq_false_2. congruence. }
  split; [|split].
  - intros [->|Hlen].
    + by rewrite bool_decide_eq_true_2.
    + rewrite (bool_decide_eq_false_2 (2 < _)) by lia. by rewrite andb_false_r.
  - intros Hne Hlen. split; [by apply Hnp|].
    rewrite (bool_decide_eq_false_2 (2 < _)) by lia. rewrite andb_false_r.
    simpl. by eexists _, _, _.
  - intros ls total hidden. simpl.
    destruct (bool_decide (value = "true")) eqn:Hb; simpl; [done|].
    apply bool_decide_eq_false in Hb.
    case_bool_decide as Hlen; [|done].
    intros [= <- _ _]. auto.
Qed.

Lemma listing_isPro_field_witness :
  isPro db_one = false
  ∧ handle cfg0 o0 GetLinks db_one
    = (db_one, Json 200 (JLinks true (select_links db_one) (length (select_links db_one)) 0)).
Proof.
  split; [reflexivity|].
  refine (proj1 (listing_isPro_field cfg0 o0 db_one "false" eq_refl) _).
  right. vm_compute. lia.
Defined.

(** ** generateArtisticQR: what is encoded, and at which level *)

Lemma generate_cases w sourceImage text d :
  let cfg := server_config w in
  let o := server_oracle w in
  let i := shortid_generate o in
  let shortUrl := base_url cfg +:+ "/s/" +:+ i in
  (qr_calls (generate w sourceImage text d).1.2 = []
   ∧ ∀ canvas, (generate w sourceImage text d).2 ≠ ResultImage canvas)
  ∨ (qr_calls (generate w sourceImage text d).1.2 = [(Some shortUrl, "H")]
     ∧ text ≠ ""
     ∧ handle cfg o (PostLinks (Some text)) d
       = ((generate w sourceImage text d).1.1, Json 200 (JCreated i shortUrl))
     ∧ ∀ canvas, (generate w sourceImage text d).2 = ResultImage canvas →
         ∃ modules bgImg, QRCode_create w shortUrl "H" = inr modules
                          ∧ canvas = composite bgImg modules).
Proof.
  intros cfg o i shortUrl. unfold generate, generateArtisticQR.
  destruct (falsy sourceImage || falsy (Some text)) eqn:Hf.
  { left. simpl. done. }
  apply orb_false_elim in Hf as [Hs Ht].
  assert (Htext : text ≠ "").
  { simpl in Ht. by apply bool_decide_eq_false in Ht. }
  cbn [run].
  destruct (handle (server_config w) (server_oracle w) (PostLinks (Some text)) d)
    as [d1 r] eqn:Hh.
  pose proof Hh as Hh'. cbn [handle] in Hh'. unfold post_links in Hh'.
  rewrite Ht in Hh'.
  destruct (insert_link _ _ _ d) as [d1'|]; injection Hh' as <- <-; simpl.
  2:{ left. done. }
  destruct (generateContent w (default "" sourceImage)) as [msg|parts]; simpl.
  { left. done. }
  destruct (decide (first_inline parts = "")); simpl.
  { left. done. }
  fold cfg o i shortUrl.
  destruct (QRCode_create w shortUrl "H") as [msg|modules] eqn:Hqr; simpl.
  { right. done. }
  destruct (getContext w); simpl.
  2:{ right. done. }
  destruct (decode_image w (first_inline parts)) as [bg|]; simpl.
  2:{ right. done. }
  right. repeat split; try done.
  intros canvas [= <-]. by exists modules, bg.
Qed.

(** C3: in every run of generateArtisticQR, each call of the QR encoder asks
    for level H and is given the shortUrl that POST /api/links answered in
    this run, the address under which the server stored the entered text as
    target_url of a new id; there is at most one such call, and an image
    that results is composited from the matrix of exactly that call. *)
Theorem generate_encodes_short_url (w : world) (sourceImage : option string)
    (text : string) (d : db) :
  (∀ payload level,
     CalledQRCodeCreate payload level ∈ (generate w sourceImage text d).1.2 →
     level = "H"
     ∧ ∃ i shortUrl,
         payload = Some shortUrl
         ∧ shortUrl = base_url (server_config w) +:+ "/s/" +:+ i
         ∧ handle (server_config w) (server_oracle w) (PostLinks (Some text)) d
           = ((generate w sourceImage text d).1.1, Json 200 (JCreated i shortUrl))
         ∧ links d !! i = None
         ∧ links (generate w sourceImage text d).1.1 !! i
           = Some (LinkCols text (now (server_oracle w))))
  ∧ length (qr_calls (generate w sourceImage text d).1.2) ≤ 1
  ∧ (∀ canvas, (generate w sourceImage text d).2 = ResultImage canvas →
       ∃ shortUrl modules bgImg,
         qr_calls (generate w sourceImage text d).1.2 = [(Some shortUrl, "H")]
         ∧ QRCode_create w shortUrl "H" = inr modules
         ∧ canvas = composite bgImg modules).
Proof.
  destruct (generate_cases w sourceImage text d)
    as [[Hq Hno]|(Hq & Htext & Hpost & Hres)]; simpl in *.
  - split; [|split].
    + intros payload level Hin.
      assert (Hin' : (payload, level) ∈ qr_calls (generate w sourceImage text d).1.2).
      { apply list_elem_of_omap. by exists (CalledQRCodeCreate payload level). }
      rewrite Hq in Hin'. by apply elem_of_nil in Hin'.
    + rewrite Hq. simpl. lia.
    + intros canvas Hc. by destruct (Hno canvas).
  - split; [|split].
    + intros payload level Hin.
      assert (Hin' : (payload, level) ∈ qr_calls (generate w sourceImage text d).1.2).
      { apply list_elem_of_omap. by exists (CalledQRCodeCreate payload level). }
      rewrite Hq in Hin'. apply list_elem_of_singleton in Hin'.
      injection Hin' as -> ->. split; [done|].
      eexists _, _. split; [done|]. split; [done|]. split; [exact Hpost|].
      apply post_links_created in Hpost as (_ & _ & _ & Hnone & ->).
      split; [done|]. simpl. apply lookup_insert_eq.
    + rewrite Hq. simpl. lia.
    + intros canvas Hc. destruct (Hres canvas Hc) as (modules & bg & ? & ?).
      by eexists _, modules, bg.
Qed.

Lemma generate_encodes_short_url_witness :
  ∃ shortUrl modules bgImg,
    qr_calls (generate world0 (Some "data:image/png;base64,AAAA") "https://google.com"
                fresh_db).1.2
      = [(Some shortUrl, "H")]
    ∧ QRCode_create world0 shortUrl "H" = inr modules
    ∧ composite grey modules21 = composite bgImg modules.
Proof.
  exact (proj2 (proj2 (generate_encodes_short_url world0
           (Some "data:image/png;base64,AAAA") "https://google.com" fresh_db))
           (composite grey modules21) eq_refl).
Defined.

Example generate_world0_calls :
  qr_calls (generate world0 (Some "data:image/png;base64,AAAA") "https://google.com"
              fresh_db).1.2
  = [(Some "http://localhost:3000/s/abc", "H")].
Proof. vm_compute. reflexivity. Qed.

(** ** The dot pass *)

Lemma isFinder_region mc row col :
  isFinder mc row col = true ↔ finder_region mc row col.
Proof.
  unfold isFinder, finder_region.
  rewrite !orb_true_iff, !andb_true_iff, !bool_decide_eq_true. lia.
Qed.

Lemma radius_comm (scale : Q) : (scale * (18 # 100) = (18 # 100) * scale)%Q.
Proof. unfold Qmult. simpl. f_equal; [apply Z.mul_comm|apply Pos.mul_comm]. Qed.

Lemma draw_dot_painted modules scale row col ctx :
  painted (draw_dot modules scale row col ctx)
  = painted ctx ++ (if isFinder (modules_size modules) row col then []
                    else [dot_of modules scale (row, col)]).
Proof.
  unfold draw_dot, dot_of.
  destruct (isFinder _ row col); simpl; [by rewrite app_nil_r|].
  by rewrite radius_comm.
Qed.

(** What a loop paints, when each round only adds to what is painted. *)
Lemma for_range_painted (n : nat) (body : nat → context2d → context2d)
    (out : nat → list paint) ctx :
  (∀ i c, painted (body i c) = painted c ++ out i) →
  painted (for_range n body ctx) = painted ctx ++ (i ← seq 0 n; out i).
Proof.
  intros Hbody. unfold for_range. generalize (seq 0 n). intros l.
  revert ctx. induction l as [|i l IH]; intros ctx.
  - simpl. by rewrite app_nil_r.
  - rewrite bind_cons. cbn [foldl]. rewrite IH, Hbody, <- app_assoc. done.
Qed.

Lemma dots_of_cells modules scale mc (rows cols : list nat) :
  (row ← rows; col ← cols;
   if isFinder mc row col then [] else [dot_of modules scale (row, col)])
  = dot_of modules scale <$>
      filter (λ cell, isFinder mc cell.1 cell.2 = false)
             (row ← rows; col ← cols; [(row, col)]).
Proof.
  induction rows as [|row rows IH]; [done|].
  rewrite !bind_cons, filter_app, fmap_app, IH. f_equal.
  clear IH. induction cols as [|col cols IH]; [done|].
  rewrite !bind_cons, filter_app, fmap_app, IH. f_equal.
  destruct (isFinder mc row col) eqn:Hf.
  - rewrite filter_cons_False by (simpl; congruence). done.
  - rewrite filter_cons_True by done. done.
Qed.

Lemma draw_dots_painted modules scale ctx :
  painted (draw_dots modules scale ctx)
  = painted ctx
    ++ (dot_of modules scale <$>
          filter (λ cell, isFinder (modules_size modules) cell.1 cell.2 = false)
                 (cells (modules_size modules))).
Proof.
  unfold draw_dots, cells.
  rewrite (for_range_painted _ _
    (λ row, col ← seq 0 (modules_size modules);
            if isFinder (modules_size modules) row col then []
            else [dot_of modules scale (row, col)])).
  2:{ intros row c. apply for_range_painted. intros col c'. apply draw_dot_painted. }
  f_equal. apply dots_of_cells.
Qed.

Lemma cells_spec mc row col : (row, col) ∈ cells mc ↔ row < mc ∧ col < mc.
Proof.
  unfold cells. rewrite list_elem_of_bind. split.
  - intros (r & Hin & Hr). apply list_elem_of_bind in Hin as (c & Hin & Hc).
    apply list_elem_of_singleton in Hin as [= -> ->].
    apply elem_of_seq in Hr, Hc. lia.
  - intros [Hr Hc]. exists row. split; [|apply elem_of_seq; lia].
    apply list_elem_of_bind. exists col. split; [by left|apply elem_of_seq; lia].
Qed.

Lemma cells_NoDup mc : NoDup (cells mc).
Proof.
  unfold cells. apply NoDup_bind.
  - intros r1 r2 cell _ _ H1 H2.
    apply list_elem_of_bind in H1 as (c1 & H1 & _), H2 as (c2 & H2 & _).
    apply list_elem_of_singleton in H1, H2. congruence.
  - intros r _. apply NoDup_bind.
    + intros c1 c2 cell _ _ H1 H2.
      apply list_elem_of_singleton in H1, H2. congruence.
    + intros c _. apply NoDup_singleton.
    + apply NoDup_seq.
  - apply NoDup_seq.
Qed.

Lemma draw_finders_painted modules ctx :
  painted (draw_finders modules ctx)
  = painted ctx ++ all_finder_squares (scale_of modules) (num (modules_size modules)).
Proof.
  unfold draw_finders, drawFinder, all_finder_squares, finder_squares. simpl.
  by rewrite <- !app_assoc.
Qed.

Lemma composite_painted bgImg modules :
  painted (composite bgImg modules)
  = DrawImage bgImg 0 0 canvas_size canvas_size
    :: (dot_of modules (scale_of modules) <$>
          filter (λ cell, isFinder (modules_size modules) cell.1 cell.2 = false)
                 (cells (modules_size modules)))
    ++ all_finder_squares (scale_of modules) (num (modules_size modules)).
Proof.
  unfold composite. rewrite draw_finders_painted, draw_dots_painted. done.
Qed.

Lemma dot_paint_at modules scale row col px py under :
  paint_at (dot_of modules scale (row, col)) px py under
  = if Qle_bool ((px - (num col * scale + scale / 2)) * (px - (num col * scale + scale / 2))
                 + (py - (num row * scale + scale / 2)) * (py - (num row * scale + scale / 2)))
                (((18 # 100) * scale) * ((18 # 100) * scale))
    then over (if get modules row col then Rgba 0 0 0 (9 # 10)
               else Rgba 255 255 255 (9 # 10)) under
    else under.
Proof.
  unfold dot_of, paint_at. destruct (get modules row col); simpl; rewrite orb_false_r; unfold in_arc; simpl startAngle; simpl endAngle; simpl ax; simpl ay; simpl aradius; change (Qle_bool 2 (2 - 0)) with true; done.
Qed.

(** C1: what composite paints is the background image, then one filled
    path per cell of a list that holds each cell of the matrix outside the
    three 7 by 7 corner regions exactly once and no cell inside them, then
    the finder squares; the path of a cell is the disc around the cell's
    midpoint (col*scale + scale/2, row*scale + scale/2) with radius
    0.18*scale, composited in black of alpha 0.9 when the module is dark
    and in white of alpha 0.9 when it is light. *)
Theorem dots_outside_finders (bgImg : image) (modules : bit_matrix) :
  ∃ cs : list (nat * nat),
    NoDup cs
    ∧ (∀ row col, (row, col) ∈ cs ↔
         row < modules_size modules ∧ col < modules_size modules
         ∧ ¬ finder_region (modules_size modules) row col)
    ∧ painted (composite bgImg modules)
      = DrawImage bgImg 0 0 canvas_size canvas_size
        :: (dot_of modules (canvas_size / num (modules_size modules)) <$> cs)
        ++ all_finder_squares (canvas_size / num (modules_size modules))
                              (num (modules_size modules))
    ∧ ∀ scale row col px py under,
        paint_at (dot_of modules scale (row, col)) px py under
        = if Qle_bool
               ((px - (num col * scale + scale / 2)) * (px - (num col * scale + scale / 2))
                + (py - (num row * scale + scale / 2)) * (py - (num row * scale + scale / 2)))
               (((18 # 100) * scale) * ((18 # 100) * scale))
          then over (if get modules row col then Rgba 0 0 0 (9 # 10)
                     else Rgba 255 255 255 (9 # 10)) under
          else under.
Proof.
  eexists. split; [|split; [|split; [apply composite_painted|]]].
  - apply NoDup_filter, cells_NoDup.
  - intros row col. rewrite list_elem_of_filter, cells_spec. simpl.
    rewrite <- isFinder_region. split.
    + intros [Hf [Hr Hc]]. split; [done|]. split; [done|]. congruence.
    + intros (Hr & Hc & Hf). split; [|done]. by apply not_true_is_false.
  - intros. apply dot_paint_at.
Qed.

(** ** The finder patterns *)

Lemma Qle_bool_scale (s a b : Q) : (0 < s)%Q → Qle_bool (a * s) (b * s) = Qle_bool a b.
Proof.
  intros Hs. apply eq_iff_eq_true. rewrite !Qle_bool_iff. by apply Qmult_le_r.
Qed.

Lemma Qle_bool_scale_plus (s a w b : Q) :
  (0 < s)%Q → Qle_bool (a * s + w * s) (b * s) = Qle_bool (a + w) b.
Proof.
  intros Hs. apply eq_iff_eq_true. rewrite !Qle_bool_iff.
  rewrite <- Qmult_plus_distr_l. by apply Qmult_le_r.
Qed.

(** A box test does not depend on the unit of length. *)
Lemma in_box_scale (s x y w h u v : Q) :
  (0 < s)%Q →
  in_box (x * s) (y * s) (w * s) (h * s) (u * s) (v * s) = in_box x y w h u v.
Proof.
  intros Hs. unfold in_box.
  by rewrite !Qle_bool_scale, !Qle_bool_scale_plus.
Qed.

Lemma in_box_true (x y w h u v : Q) :
  in_box x y w h u v = true ↔ (x <= u ∧ u < x + w ∧ y <= v ∧ v < y + h)%Q.
Proof.
  unfold in_box. rewrite !andb_true_iff, !negb_true_iff, !Qle_bool_iff.
  rewrite <- !not_true_iff_false, !Qle_bool_iff.
  split.
  - intros [[[? ?%Qnot_le_lt] ?] ?%Qnot_le_lt]. done.
  - intros (? & ?%Qlt_not_le & ? & ?%Qlt_not_le). done.
Qed.

Lemma in_box_false (x y w h u v : Q) :
  (u < x ∨ x + w <= u ∨ v < y ∨ y + h <= v)%Q → in_box x y w h u v = false.
Proof.
  intros H. apply not_true_iff_false. rewrite in_box_true. lra.
Qed.

Lemma in_box_shift (x y a b w h u v : Q) :
  in_box (x + a) (y + b) w h (x + u) (y + v) = in_box a b w h u v.
Proof. apply eq_iff_eq_true. rewrite !in_box_true. lra. Qed.

Lemma sample_app (l1 l2 : list paint) (px py : Q) :
  sample (l1 ++ l2) px py
  = foldl (λ under p, paint_at p px py under) (sample l1 px py) l2.
Proof. unfold sample. apply foldl_app. Qed.

(** One finder pattern, painted over anything. *)
Lemma finder_squares_at (s x y u v : Q) (under : rgba) :
  (0 < s)%Q →
  foldl (λ under p, paint_at p (u * s) (v * s) under) under (finder_squares s x y)
  = if in_box (x + 2) (y + 2) 3 3 u v then black
    else if in_box (x + 1) (y + 1) 5 5 u v then white
    else if in_box x y 7 7 u v then black
    else under.
Proof.
  intros Hs. unfold finder_squares. cbn [foldl paint_at].
  change (css_color "black") with (Some black).
  change (css_color "white") with (Some white).
  rewrite !in_box_scale by done.
  change (over black) with (λ _ : rgba, black).
  change (over white) with (λ _ : rgba, white).
  cbv beta.
  destruct (in_box (x + 2) (y + 2) 3 3 u v) eqn:H3; [done|].
  destruct (in_box (x + 1) (y + 1) 5 5 u v) eqn:H5; [done|].
  destruct (in_box x y 7 7 u v) eqn:H7; done.
Qed.

Lemma num_ge (n k : nat) : k ≤ n → (num k <= num n)%Q.
Proof. intros H. unfold num. rewrite <- Zle_Qle. lia. Qed.

Lemma scale_of_pos modules : 0 < modules_size modules → (0 < scale_of modules)%Q.
Proof.
  intros H. unfold scale_of, canvas_size, Qdiv.
  apply Qmult_lt_0_compat; [done|]. apply Qinv_lt_0_compat.
  unfold num. change 0%Q with (inject_Z 0). rewrite <- Zlt_Qlt. lia.
Qed.

(** C2: composite paints the nine finder squares after everything else, in
    black, white and black, whatever the image and the matrix; when the
    matrix has a QR code's size (at least 21), the finished canvas shows at
    every point of each 7 by 7 corner block the nested squares: black in the
    3 by 3 core, white in the rest of the 5 by 5 square, black in the rest. *)
Theorem finder_patterns_last (bgImg : image) (modules : bit_matrix) :
  21 ≤ modules_size modules →
  (∃ before,
     painted (composite bgImg modules)
     = before ++ all_finder_squares (canvas_size / num (modules_size modules))
                                    (num (modules_size modules)))
  ∧ ∀ fx fy u v : Q,
      (fx = 0 ∧ fy = 0)%Q
      ∨ (fx = num (modules_size modules) - 7 ∧ fy = 0)%Q
      ∨ (fx = 0 ∧ fy = num (modules_size modules) - 7)%Q →
      (0 <= u ∧ u < 7)%Q → (0 <= v ∧ v < 7)%Q →
      sample (painted (composite bgImg modules))
             ((fx + u) * (canvas_size / num (modules_size modules)))
             ((fy + v) * (canvas_size / num (modules_size modules)))
      = finder_pattern u v.
Proof.
  intros Hsize. rewrite composite_painted.
  split; [by eexists (_ :: _)|].
  intros fx fy u v Hcorner Hu Hv.
  pose proof (scale_of_pos modules ltac:(lia)) as Hs.
  pose proof (num_ge _ 21 Hsize) as HM. change (num 21) with 21%Q in HM.
  unfold scale_of in *.
  set (s := (canvas_size / num (modules_size modules))%Q) in *.
  set (M := num (modules_size modules)) in *.
  rewrite app_comm_cons, sample_app. unfold all_finder_squares.
  rewrite !foldl_app, !finder_squares_at by done.
  unfold finder_pattern.
  destruct Hcorner as [[-> ->]|[[-> ->]|[-> ->]]].
  - rewrite !(in_box_false (0 + _) ((M - 7) + _)) by lra.
    rewrite !(in_box_false 0 (M - 7)) by lra.
    rewrite !(in_box_false ((M - 7) + _) (0 + _)) by lra.
    rewrite !(in_box_false (M - 7) 0) by lra.
    rewrite !in_box_shift.
    assert (H7 : in_box 0 0 7 7 (0 + u) (0 + v) = true) by (apply in_box_true; lra).
    rewrite H7. by destruct (in_box 2 2 3 3 u v), (in_box 1 1 5 5 u v).
  - rewrite !(in_box_false (0 + _) ((M - 7) + _)) by lra.
    rewrite !(in_box_false 0 (M - 7)) by lra.
    rewrite !in_box_shift.
    assert (H7 : in_box (M - 7) 0 7 7 (M - 7 + u) (0 + v) = true)
      by (apply in_box_true; lra).
    rewrite H7. by destruct (in_box 2 2 3 3 u v), (in_box 1 1 5 5 u v).
  - rewrite !in_box_shift.
    assert (H7 : in_box 0 (M - 7) 7 7 (0 + u) (M - 7 + v) = true)
      by (apply in_box_true; lra).
    rewrite H7. by destruct (in_box 2 2 3 3 u v), (in_box 1 1 5 5 u v).
Qed.

Lemma finder_patterns_last_witness :
  sample (painted (composite grey modules21))
         ((0 + (7 # 2)) * (canvas_size / num (modules_size modules21)))
         ((0 + (7 # 2)) * (canvas_size / num (modules_size modules21)))
  = finder_pattern (7 # 2) (7 # 2).
Proof.
  apply (proj2 (finder_patterns_last grey modules21 ltac:(simpl; lia))).
  - left. done.
  - lra.
  - lra.
Defined.

Example finder_pattern_rings :
  finder_pattern (7 # 2) (7 # 2) = black
  ∧ finder_pattern (3 # 2) (7 # 2) = white
  ∧ finder_pattern (1 # 2) (7 # 2) = black.
Proof. vm_compute. done. Qed.

(** * Further properties of server.ts *)

(** ** Which requests change which table *)

Lemma handle_links cfg o r d :
  links (handle cfg o r d).1 = links d
  ∨ (∃ u, r = PostLinks (Some u) ∧ u ≠ "" ∧ links d !! shortid_generate o = None
          ∧ links (handle cfg o r d).1
            = <[shortid_generate o := LinkCols u (now o)]> (links d))
  ∨ (∃ i, r = DeleteLinks i ∧ links (handle cfg o r d).1 = delete i (links d)).
Proof.
  destruct r as [rawBody sig| | |targetUrl|i|i| |i ua ref|]; simpl.
  - left. unfold post_webhook. destruct (constructEvent _ _ _ _); simpl; [done|].
    by destruct (decide _).
  - left. unfold get_pro_status. by destruct (select_is_pro d).
  - left. unfold post_checkout. by destruct (sessions_create o).
  - unfold post_links, insert_link. destruct targetUrl as [u|]; simpl; [|by left].
    case_bool_decide as Hu; [by left|].
    destruct (links d !! shortid_generate o) eqn:Hl; [by left|].
    right. left. by exists u.
  - right. right. exists i. unfold delete_links, delete_link, delete_scans. simpl.
    by destruct (decide _).
  - left. unfold get_analytics. by destruct (select_link i d).
  - left. unfold get_links. destruct (select_is_pro d); [|done].
    by destruct (negb _ && _).
  - left. unfold get_s. by destruct (select_link i d).
  - by left.
Qed.

(** X1: no request changes the row of a stored link: after any request the
    link is stored with the same target_url and created_at, unless the
    request is the DELETE of that very id, after which it is gone. *)
Theorem stored_link_immutable (cfg : config) (o : oracle) (r : request) (d : db)
    (i : string) (c : link_cols) :
  links d !! i = Some c →
  links (handle cfg o r d).1 !! i = Some c
  ∨ (r = DeleteLinks i ∧ links (handle cfg o r d).1 !! i = None).
Proof.
  intros Hc.
  destruct (handle_links cfg o r d) as [->|[(u & _ & _ & Hn & ->)|(j & -> & ->)]].
  - by left.
  - left. rewrite lookup_insert_ne; [done|]. intros Heq. congruence.
  - destruct (decide (j = i)) as [->|Hne].
    + right. split; [done|]. apply lookup_delete_eq.
    + left. by rewrite lookup_delete_ne.
Qed.

Lemma stored_link_immutable_witness :
  links (handle cfg0 o0 (GetS "abc" None None) db_one).1 !! "abc"
    = Some (LinkCols "https://google.com" (DateTime 2024 1 1 9 0 0))
  ∨ (GetS "abc" None None = DeleteLinks "abc"
     ∧ links (handle cfg0 o0 (GetS "abc" None None) db_one).1 !! "abc" = None).
Proof.
  exact (stored_link_immutable cfg0 o0 (GetS "abc" None None) db_one "abc" _ eq_refl).
Defined.

(** ** Scan ids *)

Lemma handle_scans cfg o r d :
  (scans (handle cfg o r d).1 = scans d ∧ scans_seq (handle cfg o r d).1 = scans_seq d)
  ∨ (∃ i, r = DeleteLinks i
          ∧ scans (handle cfg o r d).1 = filter (λ s, link_id s ≠ i) (scans d)
          ∧ scans_seq (handle cfg o r d).1 = scans_seq d)
  ∨ (∃ i ua ref c, r = GetS i ua ref ∧ links d !! i = Some c
          ∧ scans (handle cfg o r d).1
            = scans d ++ [Scan (S (scans_seq d)) i (now o) (or_default ua "unknown")]
          ∧ scans_seq (handle cfg o r d).1 = S (scans_seq d)).
Proof.
  destruct r as [rawBody sig| | |targetUrl|i|i| |i ua ref|]; simpl.
  - left. unfold post_webhook. destruct (constructEvent _ _ _ _); simpl; [done|].
    by destruct (decide _).
  - left. unfold get_pro_status. by destruct (select_is_pro d).
  - left. unfold post_checkout. by destruct (sessions_create o).
  - left. unfold post_links, insert_link. destruct (falsy targetUrl); [done|].
    by destruct (links d !! shortid_generate o).
  - right. left. exists i. unfold delete_links, delete_link, delete_scans. simpl.
    by destruct (decide _).
  - left. unfold get_analytics. by destruct (select_link i d).
  - left. unfold get_links. destruct (select_is_pro d); [|done].
    by destruct (negb _ && _).
  - unfold get_s, select_link. destruct (links d !! i) as [c|] eqn:Hc; simpl.
    + right. right. by exists i, ua, ref, c.
    + by left.
  - by left.
Qed.

Lemma StronglySorted_filter {A} (R : relation A) (P : A → Prop)
    `{∀ x, Decision (P x)} (l : list A) :
  StronglySorted R l → StronglySorted R (filter P l).
Proof.
  induction 1 as [|a l _ IH Ha]; [constructor|].
  destruct (decide (P a)).
  - rewrite filter_cons_True by done. constructor; [done|].
    apply Forall_forall. intros x [_ Hx]%list_elem_of_filter.
    rewrite Forall_forall in Ha. by apply Ha.
  - by rewrite filter_cons_False.
Qed.

Lemma scan_ids_step cfg o r d :
  StronglySorted (λ a b, scan_id a < scan_id b) (scans d) →
  Forall (λ s, scan_id s ≤ scans_seq d) (scans d) →
  StronglySorted (λ a b, scan_id a < scan_id b) (scans (handle cfg o r d).1)
  ∧ Forall (λ s, scan_id s ≤ scans_seq (handle cfg o r d).1) (scans (handle cfg o r d).1).
Proof.
  intros Hs Hb.
  destruct (handle_scans cfg o r d)
    as [[-> ->]|[(i & _ & -> & ->)|(i & ua & ref & c & _ & _ & -> & ->)]].
  - done.
  - split; [by apply StronglySorted_filter|].
    apply Forall_forall. intros s [_ Hin]%list_elem_of_filter.
    rewrite Forall_forall in Hb. by apply Hb.
  - split.
    + apply StronglySorted_app. split; [|split; [done|]].
      * intros a b Ha ->%list_elem_of_singleton. simpl.
        rewrite Forall_forall in Hb. apply Hb in Ha. lia.
      * repeat constructor.
    + apply Forall_app. split.
      * eapply Forall_impl; [exact Hb|]. simpl. lia.
      * repeat constructor.
Qed.

(** X2: in every state the server can be in, the scan rows are in strictly
    increasing order of id (so no id occurs twice), none exceeds the
    sequence counter, and no request lowers the counter: an id given out
    once is never given out again, also after deletions. *)
Theorem scan_ids_increasing (cfg : config) (d : db) :
  reachable cfg d →
  StronglySorted (λ a b, scan_id a < scan_id b) (scans d)
  ∧ Forall (λ s, scan_id s ≤ scans_seq d) (scans d)
  ∧ ∀ o r, scans_seq d ≤ scans_seq (handle cfg o r d).1.
Proof.
  intros Hr.
  assert (H : StronglySorted (λ a b, scan_id a < scan_id b) (scans d)
              ∧ Forall (λ s, scan_id s ≤ scans_seq d) (scans d)).
  { induction Hr as [|o r d _ [IH1 IH2]|d _ IH].
    - split; constructor.
    - by apply scan_ids_step.
    - unfold init_schema. by destruct (settings d !! "is_pro"). }
  destruct H as [H1 H2]. split; [done|]. split; [done|].
  intros o r.
  destruct (handle_scans cfg o r d)
    as [[_ ->]|[(i & _ & _ & ->)|(i & ua & ref & c & _ & _ & _ & ->)]]; lia.
Qed.

Lemma scan_ids_increasing_witness :
  StronglySorted (λ a b, scan_id a < scan_id b) (scans db_scanned)
  ∧ Forall (λ s, scan_id s ≤ scans_seq db_scanned) (scans db_scanned)
  ∧ ∀ o r, scans_seq db_scanned ≤ scans_seq (handle cfg0 o r db_scanned).1.
Proof. exact (scan_ids_increasing cfg0 db_scanned db_scanned_reachable). Defined.

(** ** Referential integrity *)

Lemma unlinked_no_scans cfg d i :
  reachable cfg d → links d !! i = None → scans_of i d = [].
Proof.
  intros Hr Hn. pose proof (reachable_scans_linked cfg d Hr) as Hl.
  unfold scans_of.
  destruct (filter (λ s, link_id s = i) (scans d)) as [|s l] eqn:Hf; [done|].
  assert (Hs : s ∈ filter (λ s, link_id s = i) (scans d)) by (rewrite Hf; left).
  apply list_elem_of_filter in Hs as [<- Hs]. apply Hl in Hs.
  rewrite Hn in Hs. by destruct Hs.
Qed.

(** X3: in every state the server can be in, each scan row names a stored
    link, and an id that is not stored has no scan rows. *)
Theorem scans_always_linked (cfg : config) (d : db) :
  reachable cfg d →
  Forall (λ s, is_Some (links d !! link_id s)) (scans d)
  ∧ ∀ i, links d !! i = None → scans_of i d = [].
Proof.
  intros Hr. split.
  - apply Forall_forall. by apply (reachable_scans_linked cfg).
  - intros i. by apply (unlinked_no_scans cfg).
Qed.

Lemma scans_always_linked_witness :
  Forall (λ s, is_Some (links db_scanned !! link_id s)) (scans db_scanned)
  ∧ ∀ i, links db_scanned !! i = None → scans_of i db_scanned = [].
Proof. exact (scans_always_linked cfg0 db_scanned db_scanned_reachable). Defined.

(** ** Creating a link *)

(** X4: POST /api/links without a target (missing or empty) answers 400 and
    changes nothing; when the generated id is already stored the insert
    throws and nothing changes; otherwise, in a state the server can be
    in, it answers the short url of the generated id, the listing has one
    more entry, the new link is listed with 0 scans, and its detail has
    no scans and no chart rows. *)
Theorem createLink_outcomes (cfg : config) (o : oracle) (targetUrl : option string)
    (d : db) :
  (targetUrl = None ∨ targetUrl = Some "" →
     handle cfg o (PostLinks targetUrl) d
       = (d, Json 400 (JError "Target URL is required")))
  ∧ (∀ u, targetUrl = Some u → u ≠ "" → is_Some (links d !! shortid_generate o) →
       handle cfg o (PostLinks targetUrl) d = (d, Uncaught))
  ∧ (∀ u, targetUrl = Some u → u ≠ "" → links d !! shortid_generate o = None →
       reachable cfg d →
       let i := shortid_generate o in
       let d' := (handle cfg o (PostLinks targetUrl) d).1 in
       (handle cfg o (PostLinks targetUrl) d).2
         = Json 200 (JCreated i (base_url cfg +:+ "/s/" +:+ i))
       ∧ LinkCount (Link i u (now o)) 0 ∈ select_links d'
       ∧ length (select_links d') = S (length (select_links d))
       ∧ ∀ o', handle cfg o' (GetAnalytics i) d'
               = (d', Json 200 (JAnalytics (Link i u (now o)) [] []))).
Proof.
  split; [|split].
  - intros [->| ->]; reflexivity.
  - intros u -> Hu [c Hc]. simpl. unfold post_links, insert_link. simpl.
    rewrite bool_decide_eq_false_2 by done. by rewrite Hc.
  - intros u -> Hu Hn Hr. simpl. unfold post_links, insert_link. simpl.
    rewrite bool_decide_eq_false_2 by done. rewrite Hn. simpl.
    set (i := shortid_generate o).
    set (d' := Db (<[i := LinkCols u (now o)]> (links d)) (scans d) (scans_seq d)
                  (settings d)).
    assert (Hno : scans_of i d' = []).
    { by apply (unlinked_no_scans cfg d i Hr). }
    split; [done|]. split; [|split].
    + apply elem_of_select_links. exists i, (LinkCols u (now o)).
      split; [apply lookup_insert_eq|]. by rewrite Hno.
    + rewrite !(Permutation_length (select_links_perm _)), !length_fmap.
      rewrite !length_map_to_list. simpl. by apply map_size_insert_None.
    + intros o'. unfold get_analytics, select_link. simpl.
      rewrite lookup_insert_eq. simpl. unfold link_row. simpl.
      unfold select_scans, select_chart_data, scan_dates. by rewrite Hno.
Qed.

(** ** Counting scans *)

Lemma scans_of_insert_scan i j ua t d :
  scans_of j (insert_scan i ua t d)
  = scans_of j d ++ (if decide (i = j) then [Scan (S (scans_seq d)) i t ua] else []).
Proof.
  unfold scans_of, insert_scan. simpl. rewrite filter_app. f_equal.
Qed.

(** X5: resolving a stored id raises that link's count in the listing and
    the number of scans in its detail by exactly one, keeps the entries of
    all other links and the number of entries. *)
Theorem resolve_counts_one (cfg : config) (o : oracle) (d : db) (i : string)
    (ua ref : option string) (c : link_cols) :
  links d !! i = Some c →
  let d' := (handle cfg o (GetS i ua ref) d).1 in
  LinkCount (Link i (lc_target_url c) (lc_created_at c)) (S (length (scans_of i d)))
    ∈ select_links d'
  ∧ (∀ e, e ∈ select_links d → id (lk e) ≠ i → e ∈ select_links d')
  ∧ length (select_scans i d') = S (length (select_scans i d))
  ∧ length (select_links d') = length (select_links d).
Proof.
  intros Hc. simpl. unfold get_s, select_link. rewrite Hc. simpl.
  split; [|split; [|split]].
  - apply elem_of_select_links. exists i, c. split; [done|].
    rewrite scans_of_insert_scan, decide_True by done.
    rewrite length_app. simpl. unfold link_row. f_equal. lia.
  - intros e He Hne. apply elem_of_select_links in He as (j & cj & Hj & ->).
    apply elem_of_select_links. exists j, cj. split; [done|].
    rewrite scans_of_insert_scan, decide_False, app_nil_r; [done|].
    simpl in Hne. congruence.
  - rewrite !(Permutation_length (select_scans_perm _ _)).
    rewrite scans_of_insert_scan, decide_True by done.
    rewrite length_app. simpl. lia.
  - rewrite !(Permutation_length (select_links_perm _)), !length_fmap. done.
Qed.

Lemma resolve_counts_one_witness :
  LinkCount (Link "abc" "https://google.com" (DateTime 2024 1 1 9 0 0)) 3
    ∈ select_links (handle cfg0 o0 (GetS "abc" None None) db_scanned).1.
Proof.
  exact (proj1 (resolve_counts_one cfg0 o0 db_scanned "abc" None None _ eq_refl)).
Defined.

Lemma filter_all {A} (P : A → Prop) `{∀ x, Decision (P x)} (l : list A) :
  (∀ x, x ∈ l → P x) → filter P l = l.
Proof.
  induction l as [|a l IH]; intros Hall; [done|].
  rewrite filter_cons_True by (apply Hall; left).
  f_equal. apply IH. intros x Hx. apply Hall. by right.
Qed.

Lemma filter_none {A} (P : A → Prop) `{∀ x, Decision (P x)} (l : list A) :
  (∀ x, x ∈ l → ¬ P x) → filter P l = [].
Proof.
  induction l as [|a l IH]; intros Hall; [done|].
  rewrite filter_cons_False by (apply Hall; left).
  apply IH. intros x Hx. apply Hall. by right.
Qed.

Lemma filter_split_length {A K} `{EqDecision K} (f : A → K) (k : K)
    (keys : list K) (l : list A) :
  k ∉ keys →
  length (filter (λ x, f x ∈ k :: keys) l)
  = length (filter (λ x, f x = k) l) + length (filter (λ x, f x ∈ keys) l).
Proof.
  intros Hk. induction l as [|a l IH]; [done|].
  destruct (decide (f a = k)) as [Heq|Hne].
  - rewrite (filter_cons_True (λ x, f x ∈ k :: keys)) by (rewrite Heq; left).
    rewrite (filter_cons_True (λ x, f x = k)) by done.
    rewrite (filter_cons_False (λ x, f x ∈ keys)) by (by rewrite Heq).
    simpl. by rewrite IH.
  - rewrite (filter_cons_False (λ x, f x = k)) by done.
    destruct (decide (f a ∈ keys)) as [Hin|Hout].
    + rewrite (filter_cons_True (λ x, f x ∈ k :: keys)) by (by right).
      rewrite (filter_cons_True (λ x, f x ∈ keys)) by done.
      simpl. rewrite IH. lia.
    + rewrite (filter_cons_False (λ x, f x ∈ k :: keys))
        by (intros [?|?]%elem_of_cons; done).
      rewrite (filter_cons_False (λ x, f x ∈ keys)) by done. done.
Qed.

(** Counting the elements of each key, over keys without repetition, counts
    every element whose key is among them once. *)
Lemma count_by_key {A K} `{EqDecision K} (f : A → K) (keys : list K) (l : list A) :
  NoDup keys →
  sum_list_with (λ k, length (filter (λ x, f x = k) l)) keys
  = length (filter (λ x, f x ∈ keys) l).
Proof.
  induction 1 as [|k keys Hk _ IH].
  - rewrite filter_none; [done|]. intros x _. apply not_elem_of_nil.
  - simpl. rewrite IH. symmetry. by apply filter_split_length.
Qed.

Lemma sum_list_with_fmap {A B} (f : B → nat) (g : A → B) (l : list A) :
  sum_list_with f (g <$> l) = sum_list_with (λ x, f (g x)) l.
Proof. induction l as [|a l IH]; [done|]. simpl. f_equal. exact IH. Qed.

(** The rows of a grouping count every element once. *)
Lemma group_by_date_total (ds : list calendar_date) :
  sum_list_with count (group_by_date ds) = length ds.
Proof.
  unfold group_by_date. rewrite sum_list_with_fmap. simpl.
  rewrite (count_by_key (λ x, x)) by apply NoDup_remove_dups.
  f_equal. apply filter_all. intros x Hx. by apply elem_of_remove_dups.
Qed.

(** X6: for every id the three aggregates agree: the detail lists as many
    scans as there are scan rows of the id, the counts of the chart rows
    add up to that number, and the listing shows that number as the
    scan_count of a stored link. *)
Theorem counts_agree (d : db) (i : string) :
  length (select_scans i d) = length (filter (λ s, link_id s = i) (scans d))
  ∧ sum_list_with count (select_chart_data i d) = length (select_scans i d)
  ∧ ∀ c, links d !! i = Some c →
      LinkCount (Link i (lc_target_url c) (lc_created_at c)) (length (select_scans i d))
        ∈ select_links d.
Proof.
  split; [|split].
  - by rewrite select_scans_perm.
  - rewrite select_chart_data_perm, group_by_date_total, select_scans_perm.
    unfold scan_dates. by rewrite length_fmap.
  - intros c Hc. apply elem_of_select_links. exists i, c. split; [done|].
    by rewrite select_scans_perm.
Qed.

(** The listing's counts add up to the scans that name a stored link. *)
Lemma select_links_total d :
  sum_list_with scan_count (select_links d)
  = length (filter (λ s, is_Some (links d !! link_id s)) (scans d)).
Proof.
  rewrite select_links_perm, sum_list_with_fmap. simpl.
  replace (sum_list_with (λ kv : string * link_cols, length (scans_of kv.1 d))
             (map_to_list (links d)))
    with (sum_list_with (λ k, length (filter (λ s, link_id s = k) (scans d)))
            ((map_to_list (links d)).*1))
    by (by rewrite sum_list_with_fmap).
  rewrite count_by_key by apply NoDup_fst_map_to_list.
  f_equal. apply list_filter_iff. intros s.
  rewrite list_elem_of_fmap. split.
  - intros ([k c] & -> & Hin). apply elem_of_map_to_list in Hin. simpl. by rewrite Hin.
  - intros [c Hc]. exists (link_id s, c). split; [done|]. by apply elem_of_map_to_list.
Qed.

Lemma run_requests_reachable cfg steps d :
  reachable cfg d → reachable cfg (run_requests cfg steps d).
Proof.
  unfold run_requests. revert d.
  induction steps as [|[o r] steps IH]; intros d Hd; [done|].
  simpl. apply IH. by apply reach_request.
Qed.

(** ** The flag, as the two endpoints report it *)

(** X7: in every state the server can be in, GET /api/pro-status answers
    the stored flag, and GET /api/links answers 200 with totalCount the
    number of stored links, which is the number of entries shown plus
    hiddenCount; its isPro field is false exactly when the stored flag is
    not true and more than 2 links are stored, and hiddenCount is 0 exactly
    when the field is true. *)
Theorem pro_status_always_answers (cfg : config) (o : oracle) (d : db) :
  reachable cfg d →
  handle cfg o GetProStatus d = (d, Json 200 (JProStatus (isPro d)))
  ∧ ∃ pro ls hidden,
      handle cfg o GetLinks d = (d, Json 200 (JLinks pro ls (size (links d)) hidden))
      ∧ size (links d) = length ls + hidden
      ∧ (pro = false ↔ isPro d = false ∧ 2 < size (links d))
      ∧ (hidden = 0 ↔ pro = true).
Proof.
  intros Hr. destruct (reachable_has_is_pro cfg d Hr) as [value Hv].
  assert (Hlen : length (select_links d) = size (links d)).
  { rewrite select_links_perm, length_fmap. apply length_map_to_list. }
  assert (Hpro : isPro d = bool_decide (value = "true")).
  { unfold isPro, select_is_pro. rewrite Hv.
    apply bool_decide_ext. split; congruence. }
  split.
  - simpl. unfold get_pro_status, select_is_pro. rewrite Hv, Hpro. done.
  - rewrite (get_links_run cfg o d value Hv), Hpro, Hlen.
    destruct (bool_decide (value = "true")); simpl.
    + eexists _, _, _. split; [done|]. rewrite Hlen. split; [lia|].
      split; [|done]. split; [done|]. intros [? _]. done.
    + case_bool_decide as H2; simpl.
      * eexists _, _, _. split; [done|]. rewrite length_take, Hlen.
        split; [lia|]. split; [done|]. split; [lia|done].
      * eexists _, _, _. split; [done|]. rewrite Hlen. split; [lia|].
        split; [|done]. split; [done|]. intros [_ ?]. lia.
Qed.

Lemma pro_status_always_answers_witness :
  handle cfg_paid o0 GetProStatus db_five_pro
  = (db_five_pro, Json 200 (JProStatus (isPro db_five_pro))).
Proof.
  refine (proj1 (pro_status_always_answers cfg_paid o0 db_five_pro _)).
  apply reach_request, run_requests_reachable, reach_fresh.
Defined.

(** ** The webhook's other answers *)

(** X8: a webhook whose signature check throws answers 400 with the
    message and changes nothing; an event of any other type than
    checkout.session.completed answers received: true and changes nothing;
    no webhook changes the links, the scans or any other setting. *)
Theorem webhook_other_answers (cfg : config) (o : oracle) (rawBody : string)
    (sig : option string) (d : db) :
  (∀ message,
     constructEvent cfg rawBody sig (or_default (STRIPE_WEBHOOK_SECRET cfg) "")
       = inl message →
     handle cfg o (PostWebhook rawBody sig) d
       = (d, Send 400 ("Webhook Error: " +:+ message)))
  ∧ (∀ event,
       constructEvent cfg rawBody sig (or_default (STRIPE_WEBHOOK_SECRET cfg) "")
         = inr event →
       ev_type event ≠ "checkout.session.completed" →
       handle cfg o (PostWebhook rawBody sig) d = (d, Json 200 JReceived))
  ∧ links (handle cfg o (PostWebhook rawBody sig) d).1 = links d
  ∧ scans (handle cfg o (PostWebhook rawBody sig) d).1 = scans d
  ∧ ∀ k, k ≠ "is_pro" →
      settings (handle cfg o (PostWebhook rawBody sig) d).1 !! k = settings d !! k.
Proof.
  simpl. unfold post_webhook.
  destruct (constructEvent _ _ _ _) as [msg|ev]; simpl.
  - split; [by intros message [= <-]|]. split; [done|]. done.
  - split; [done|].
    destruct (decide _) as [Hty|Hty]; simpl.
    + split; [by intros event [= <-]|]. split; [done|]. split; [done|].
      intros k Hk. by apply lookup_alter_ne.
    + split; [by intros event [= <-]|]. done.
Qed.

(** * The dashboard (App.tsx) on top of the server *)

Lemma fetchLinks_reachable cfg o d st :
  reachable cfg d →
  ∃ pro ls hidden,
    fetchLinks cfg o d st
      = Dashboard (Some (JLinks pro ls (size (links d)) hidden)) (selectedLink st)
    ∧ handle cfg o GetLinks d = (d, Json 200 (JLinks pro ls (size (links d)) hidden)).
Proof.
  intros Hr. destruct (reachable_has_is_pro cfg d Hr) as [value Hv].
  assert (Hlen : length (select_links d) = size (links d)).
  { rewrite select_links_perm, length_fmap. apply length_map_to_list. }
  unfold fetchLinks. rewrite (get_links_run cfg o d value Hv), Hlen.
  destruct (negb _ && _); simpl; by eexists _, _, _.
Qed.

(** X9: after fetchLinks against a state the server can be in, the page
    shows the hidden-codes banner exactly when the stored flag is not true
    and more than 2 links are stored; the number of codes shown is the
    number of stored links; and when the whole listing is answered the
    total of scans shown is the number of scan rows stored. *)
Theorem hidden_banner_shown (cfg : config) (o : oracle) (d : db) (st : dashboard) :
  reachable cfg d →
  (hidden_banner (fetchLinks cfg o d st) = true ↔ isPro d = false ∧ 2 < size (links d))
  ∧ total_codes_shown (fetchLinks cfg o d st) = size (links d)
  ∧ (isPro d = true ∨ size (links d) ≤ 2 →
     total_scans_shown (fetchLinks cfg o d st) = Some (length (scans d))).
Proof.
  intros Hr. destruct (reachable_has_is_pro cfg d Hr) as [value Hv].
  assert (Hlen : length (select_links d) = size (links d)).
  { rewrite select_links_perm, length_fmap. apply length_map_to_list. }
  assert (Hpro : isPro d = bool_decide (value = "true")).
  { unfold isPro, select_is_pro. rewrite Hv.
    apply bool_decide_ext. split; congruence. }
  assert (Htotal : foldl (λ acc curr, acc + scan_count curr) 0 (select_links d)
                   = length (scans d)).
  { assert (Hfold : ∀ (l : list link_count) n,
              foldl (λ acc curr, acc + scan_count curr) n l
              = n + sum_list_with scan_count l).
    { induction l as [|a l IH]; intros n; simpl; [lia|]. rewrite IH. lia. }
    rewrite Hfold, select_links_total. simpl. f_equal.
    apply filter_all. by apply (reachable_scans_linked cfg). }
  unfold fetchLinks, hidden_banner, total_codes_shown, total_scans_shown.
  rewrite (get_links_run cfg o d value Hv), Hpro, Hlen.
  destruct (bool_decide (value = "true")); simpl.
  - split; [|split; [done|]].
    + split; [done|]. intros [? _]. done.
    + intros _. by rewrite Htotal.
  - case_bool_decide as H2; simpl.
    + split; [|split; [done|]].
      * rewrite bool_decide_eq_true. split; [done|]. lia.
      * intros [?|?]; [done|lia].
    + split; [|split; [done|]].
      * split; [done|]. intros [_ ?]. lia.
      * intros _. by rewrite Htotal.
Qed.

Lemma hidden_banner_shown_witness :
  hidden_banner (fetchLinks cfg_paid o0 db_five (Dashboard None None)) = true
  ↔ isPro db_five = false ∧ 2 < size (links db_five).
Proof.
  refine (proj1 (hidden_banner_shown cfg_paid o0 db_five (Dashboard None None) _)).
  apply run_requests_reachable, reach_fresh.
Defined.

Example hidden_banner_five :
  hidden_banner (fetchLinks cfg_paid o0 db_five (Dashboard None None)) = true
  ∧ hidden_banner (fetchLinks cfg_paid o0 db_five_pro (Dashboard None None)) = false.
Proof. vm_compute. done. Qed.

Lemma delete_links_run cfg o d i :
  handle cfg o (DeleteLinks i) d
  = (Db (delete i (links d)) (filter (λ s, link_id s ≠ i) (scans d))
        (scans_seq d) (settings d),
     match links d !! i with
     | Some _ => Json 200 JSuccess
     | None => Json 404 (JError "Link not found")
     end).
Proof.
  simpl. unfold delete_links, delete_link, delete_scans. simpl.
  destruct (links d !! i); simpl; reflexivity.
Qed.

(** X10: the dashboard's deleteLink, against a state the server can be in:
    unconfirmed it does nothing; for an id that is not stored neither the
    database nor the page changes; for a stored id the link is deleted, the
    refreshed listing has one link less and no entry of that id, and the
    detail pane no longer shows that link; when the detail pane holds an
    answer without a link, the deletion happens and the page stays as it
    was. *)
Theorem dashboard_delete (cfg : config) (o1 o2 : oracle) (i : string) (d : db)
    (st : dashboard) :
  reachable cfg d →
  deleteLink cfg o1 o2 false i d st = (d, st)
  ∧ (links d !! i = None → deleteLink cfg o1 o2 true i d st = (d, st))
  ∧ (∀ c same, links d !! i = Some c → selected_is st i = Some same →
       ∃ pro ls hidden,
         deleteLink cfg o1 o2 true i d st
           = ((handle cfg o1 (DeleteLinks i) d).1,
              Dashboard (Some (JLinks pro ls (size (links d) - 1) hidden))
                        (if same then None else selectedLink st))
         ∧ (∀ e, e ∈ ls → id (lk e) ≠ i)
         ∧ selected_is (deleteLink cfg o1 o2 true i d st).2 i = Some false)
  ∧ (∀ c, links d !! i = Some c → selected_is st i = None →
       deleteLink cfg o1 o2 true i d st = ((handle cfg o1 (DeleteLinks i) d).1, st)).
Proof.
  intros Hr.
  pose proof (delete_links_run cfg o1 d i) as Hrun.
  split; [done|]. split; [|split].
  - intros Hn. unfold deleteLink. simpl negb. cbv iota.
    rewrite Hrun, Hn. simpl.
    f_equal. rewrite delete_id by done.
    rewrite filter_all; [apply db_eta|].
    intros s Hs Heq. apply (reachable_scans_linked _ _ Hr) in Hs.
    rewrite Heq, Hn in Hs. by destruct Hs.
  - intros c same Hc Hsel. unfold deleteLink. simpl negb. cbv iota.
    rewrite Hrun, Hc. simpl response_ok. cbv iota. rewrite Hsel.
    set (d1 := Db (delete i (links d)) _ _ _).
    assert (Hr1 : reachable cfg d1).
    { replace d1 with (handle cfg o1 (DeleteLinks i) d).1 by (by rewrite Hrun).
      by apply reach_request. }
    destruct (fetchLinks_reachable cfg o2 d1
                (if same then Dashboard (linksData st) None else st) Hr1)
      as (pro & ls & hidden & Hf & Hh).
    assert (Hsize : size (links d1) = size (links d) - 1).
    { unfold d1. simpl. rewrite map_size_delete, Hc. lia. }
    rewrite Hsize in Hf.
    assert (Hsame : selectedLink (if same then Dashboard (linksData st) None else st)
                    = if same then None else selectedLink st) by (by destruct same).
    rewrite Hsame in Hf.
    exists pro, ls, hidden. rewrite Hf. split; [done|]. split.
    + intros e He Hid.
      destruct (reachable_has_is_pro cfg d1 Hr1) as [value Hv].
      rewrite (get_links_run cfg o2 d1 value Hv) in Hh.
      assert (Hin : e ∈ select_links d1).
      { destruct (negb _ && _); injection Hh as _ <- _ _; [|done].
        by apply (subseteq_take 2). }
      apply elem_of_select_links in Hin as (j & cj & Hj & ->).
      simpl in Hid. subst j. unfold d1 in Hj. simpl in Hj.
      by rewrite lookup_delete_eq in Hj.
    + simpl. unfold selected_is in *. simpl.
      destruct same; [done|]. destruct (selectedLink st) as [[]|]; try done.
  - intros c Hc Hsel. unfold deleteLink. simpl negb. cbv iota.
    rewrite Hrun, Hc. simpl response_ok. cbv iota. by rewrite Hsel.
Qed.

Lemma dashboard_delete_witness :
  ∃ pro ls hidden,
    deleteLink cfg0 o0 o0 true "abc" db_scanned (Dashboard None None)
      = ((handle cfg0 o0 (DeleteLinks "abc") db_scanned).1,
         Dashboard (Some (JLinks pro ls (size (links db_scanned) - 1) hidden)) None)
    ∧ (∀ e, e ∈ ls → id (lk e) ≠ "abc")
    ∧ selected_is (deleteLink cfg0 o0 o0 true "abc" db_scanned (Dashboard None None)).2
                  "abc" = Some false.
Proof.
  exact (proj1 (proj2 (proj2 (dashboard_delete cfg0 o0 o0 "abc" db_scanned
           (Dashboard None None) db_scanned_reachable))) _ false eq_refl eq_refl).
Defined.

(** * Further properties of the compositor *)

(** ** What shows at the midpoint of a cell *)

Global Instance in_box_proper :
  Proper (Qeq ==> Qeq ==> Qeq ==> Qeq ==> Qeq ==> Qeq ==> eq) in_box.
Proof.
  intros x x' Hx y y' Hy w w' Hw h h' Hh u u' Hu v v' Hv. unfold in_box.
  by rewrite Hx, Hy, Hw, Hh, Hu, Hv.
Qed.

Lemma num_diff_sq (a b : nat) :
  a ≠ b → (1 <= (num a - num b) * (num a - num b))%Q.
Proof.
  intros Hne. unfold num.
  unfold Qminus. rewrite <- inject_Z_opp, <- inject_Z_plus, <- inject_Z_mult.
  change 1%Q with (inject_Z 1). rewrite <- Zle_Qle. nia.
Qed.

Lemma sq_nonneg (a : Q) : (0 <= a * a)%Q.
Proof. nra. Qed.

(** The midpoint of a cell lies in the disc of that cell and of no other. *)
Lemma dot_at_midpoint modules (s : Q) (row col row' col' : nat) (under : rgba) :
  (0 < s)%Q →
  paint_at (dot_of modules s (row', col'))
           (num col * s + s / 2) (num row * s + s / 2) under
  = if decide ((row', col') = (row, col))
    then over (if get modules row col then Rgba 0 0 0 (9 # 10)
               else Rgba 255 255 255 (9 # 10)) under
    else under.
Proof.
  intros Hs. rewrite dot_paint_at.
  assert (Hss : (0 < s * s)%Q) by nra.
  destruct (decide ((row', col') = (row, col))) as [[= -> ->]|Hne].
  - rewrite (proj2 (Qle_bool_iff _ _)); [done|].
    match goal with |- (?l <= ?r)%Q =>
      assert (El : (l == 0)%Q) by ring;
      assert (Er : (r == (324 # 10000) * (s * s))%Q) by ring
    end.
    rewrite El, Er. lra.
  - match goal with |- context [Qle_bool ?l ?r] =>
      destruct (Qle_bool l r) eqn:Hle; [|done]
    end.
    exfalso. apply Qle_bool_iff in Hle.
    set (k := ((num col - num col') * (num col - num col')
               + (num row - num row') * (num row - num row'))%Q).
    match type of Hle with (?l <= ?r)%Q =>
      assert (El : (l == k * (s * s))%Q) by (unfold k; ring);
      assert (Er : (r == (324 # 10000) * (s * s))%Q) by ring
    end.
    rewrite El, Er in Hle.
    pose proof (sq_nonneg (num col - num col')) as Hc.
    pose proof (sq_nonneg (num row - num row')) as Hr.
    assert (H1 : (1 <= k)%Q).
    { unfold k. destruct (decide (col = col')) as [->|Hcol].
      - assert (Hrow : row ≠ row') by congruence.
        pose proof (num_diff_sq row row' Hrow). lra.
      - pose proof (num_diff_sq col col' Hcol). lra. }
    assert (Hkt : (1 * (s * s) <= k * (s * s))%Q) by (apply Qmult_le_compat_r; lra).
    lra.
Qed.

Lemma dots_at_midpoint modules (s : Q) (row col : nat) (cs : list (nat * nat))
    (under : rgba) :
  (0 < s)%Q → NoDup cs →
  foldl (λ under p, paint_at p (num col * s + s / 2) (num row * s + s / 2) under)
        under (dot_of modules s <$> cs)
  = if decide ((row, col) ∈ cs)
    then over (if get modules row col then Rgba 0 0 0 (9 # 10)
               else Rgba 255 255 255 (9 # 10)) under
    else under.
Proof.
  intros Hs Hnd. revert under.
  induction Hnd as [|[row' col'] cs Hnotin Hnd IH]; intros under.
  - simpl. destruct (decide ((row, col) ∈ [])) as [H|]; [|done].
    by apply elem_of_nil in H.
  - rewrite fmap_cons. cbn [foldl]. rewrite dot_at_midpoint by done. rewrite IH.
    destruct (decide ((row', col') = (row, col))) as [Heq|Hne].
    + rewrite Heq in Hnotin.
      destruct (decide ((row, col) ∈ cs)) as [|_]; [done|].
      destruct (decide ((row, col) ∈ (row', col') :: cs)) as [|Hn]; [done|].
      exfalso. apply Hn. rewrite Heq. by left.
    + destruct (decide ((row, col) ∈ cs)) as [Hin|Hout].
      * destruct (decide ((row, col) ∈ (row', col') :: cs)) as [|Hn]; [done|].
        exfalso. apply Hn. by right.
      * destruct (decide ((row, col) ∈ (row', col') :: cs)) as [Hin|]; [|done].
        apply elem_of_cons in Hin as [?|?]; [congruence|done].
Qed.

Lemma paint_rect_proper (x y w h : Q) style (px py px' py' : Q) (under : rgba) :
  (px == px')%Q → (py == py')%Q →
  paint_at (FillRect x y w h style) px py under
  = paint_at (FillRect x y w h style) px' py' under.
Proof.
  intros Hx Hy. cbn [paint_at]. destruct (css_color style); [|done].
  assert (Hb : in_box x y w h px py = in_box x y w h px' py') by (by rewrite Hx, Hy).
  by rewrite Hb.
Qed.

(** A point outside a 7 by 7 block is not touched by its three squares. *)
Lemma finder_squares_miss (s x y px py u v : Q) (under : rgba) :
  (0 < s)%Q → (px == u * s)%Q → (py == v * s)%Q →
  in_box x y 7 7 u v = false →
  foldl (λ under p, paint_at p px py under) under (finder_squares s x y) = under.
Proof.
  intros Hs Hx Hy Hout.
  assert (Hpt : foldl (λ under p, paint_at p px py under) under (finder_squares s x y)
              = foldl (λ under p, paint_at p (u * s) (v * s) under) under
                      (finder_squares s x y)).
  { unfold finder_squares. cbn [foldl].
    by rewrite !(paint_rect_proper _ _ _ _ _ px py (u * s)%Q (v * s)%Q). }
  rewrite Hpt, finder_squares_at by done. rewrite Hout.
  assert (Hprop : ¬ (x <= u ∧ u < x + 7 ∧ y <= v ∧ v < y + 7)%Q).
  { rewrite <- in_box_true. by rewrite Hout. }
  rewrite !in_box_false; [done| |]; lra.
Qed.

Lemma num_add_le (a k b : nat) : a + k ≤ b → (num a + num k <= num b)%Q.
Proof.
  intros H. unfold num. rewrite <- inject_Z_plus, <- Zle_Qle. lia.
Qed.

(** X11: at the midpoint of every cell of the matrix outside the three
    corner regions the finished canvas shows the module's colour, black
    or white of alpha 0.9, composited over what the background image alone
    shows there: no other dot and no finder square reaches that point. *)
Theorem module_midpoint_colour (bgImg : image) (modules : bit_matrix)
    (row col : nat) :
  row < modules_size modules → col < modules_size modules →
  ¬ finder_region (modules_size modules) row col →
  sample (painted (composite bgImg modules))
         (num col * scale_of modules + scale_of modules / 2)
         (num row * scale_of modules + scale_of modules / 2)
  = over (if get modules row col then Rgba 0 0 0 (9 # 10)
          else Rgba 255 255 255 (9 # 10))
         (sample [DrawImage bgImg 0 0 canvas_size canvas_size]
                 (num col * scale_of modules + scale_of modules / 2)
                 (num row * scale_of modules + scale_of modules / 2)).
Proof.
  intros Hrow Hcol Hout.
  pose proof (scale_of_pos modules ltac:(lia)) as Hs.
  rewrite composite_painted.
  set (s := scale_of modules) in *. set (mc := modules_size modules) in *.
  set (cx := (num col * s + s / 2)%Q). set (cy := (num row * s + s / 2)%Q).
  rewrite app_comm_cons, sample_app. unfold all_finder_squares.
  assert (Hcx : (cx == (num col + (1 # 2)) * s)%Q) by (unfold cx; field).
  assert (Hcy : (cy == (num row + (1 # 2)) * s)%Q) by (unfold cy; field).
  unfold finder_region in Hout.
  pose proof (num_ge col 0 ltac:(lia)) as Hc0. change (num 0) with 0%Q in Hc0.
  pose proof (num_ge row 0 ltac:(lia)) as Hr0. change (num 0) with 0%Q in Hr0.
  rewrite !foldl_app.
  rewrite (finder_squares_miss s 0 (num mc - 7) cx cy _ _ _ Hs Hcx Hcy).
  2:{ apply in_box_false. destruct (decide (col ≤ 6)).
      - assert (Hr : row + 8 ≤ mc) by lia.
        apply num_add_le in Hr. change (num 8) with 8%Q in Hr. lra.
      - pose proof (num_ge col 7 ltac:(lia)) as H7. change (num 7) with 7%Q in H7. lra. }
  rewrite (finder_squares_miss s (num mc - 7) 0 cx cy _ _ _ Hs Hcx Hcy).
  2:{ apply in_box_false. destruct (decide (row ≤ 6)).
      - assert (Hr : col + 8 ≤ mc) by lia.
        apply num_add_le in Hr. change (num 8) with 8%Q in Hr. lra.
      - pose proof (num_ge row 7 ltac:(lia)) as H7. change (num 7) with 7%Q in H7. lra. }
  rewrite (finder_squares_miss s 0 0 cx cy _ _ _ Hs Hcx Hcy).
  2:{ apply in_box_false. destruct (decide (row ≤ 6)).
      - pose proof (num_ge col 7 ltac:(lia)) as H7. change (num 7) with 7%Q in H7. lra.
      - pose proof (num_ge row 7 ltac:(lia)) as H7. change (num 7) with 7%Q in H7. lra. }
  rewrite <- (app_nil_l (dot_of modules s <$> _)), app_comm_cons, sample_app.
  unfold cx, cy. rewrite dots_at_midpoint; [|done|apply NoDup_filter, cells_NoDup].
  match goal with |- context [decide ?P] => destruct (decide P) as [|Hn] end.
  { done. }
  exfalso. apply Hn. apply list_elem_of_filter. split.
  - simpl. apply not_true_is_false. rewrite isFinder_region. exact Hout.
  - by apply cells_spec.
Qed.

Lemma module_midpoint_colour_witness :
  sample (painted (composite grey modules21))
         (num 10 * scale_of modules21 + scale_of modules21 / 2)
         (num 10 * scale_of modules21 + scale_of modules21 / 2)
  = over (if get modules21 10 10 then Rgba 0 0 0 (9 # 10)
          else Rgba 255 255 255 (9 # 10))
         (sample [DrawImage grey 0 0 canvas_size canvas_size]
                 (num 10 * scale_of modules21 + scale_of modules21 / 2)
                 (num 10 * scale_of modules21 + scale_of modules21 / 2)).
Proof.
  apply (module_midpoint_colour grey modules21 10 10).
  - simpl. lia.
  - simpl. lia.
  - unfold finder_region. simpl. lia.
Defined.

(** ** How much is painted *)

Lemma block_spec row0 rows col0 cols row col :
  (row, col) ∈ block row0 rows col0 cols
  ↔ row0 ≤ row < row0 + rows ∧ col0 ≤ col < col0 + cols.
Proof.
  unfold block. rewrite list_elem_of_bind. split.
  - intros (r & Hin & Hr). apply list_elem_of_bind in Hin as (c & Hin & Hc).
    apply list_elem_of_singleton in Hin as [= -> ->].
    apply elem_of_seq in Hr, Hc. lia.
  - intros [Hr Hc]. exists row. split; [|apply elem_of_seq; lia].
    apply list_elem_of_bind. exists col. split; [by left|apply elem_of_seq; lia].
Qed.

Lemma block_NoDup row0 rows col0 cols : NoDup (block row0 rows col0 cols).
Proof.
  unfold block. apply NoDup_bind.
  - intros r1 r2 cell _ _ H1 H2.
    apply list_elem_of_bind in H1 as (c1 & H1 & _), H2 as (c2 & H2 & _).
    apply list_elem_of_singleton in H1, H2. congruence.
  - intros r _. apply NoDup_bind.
    + intros c1 c2 cell _ _ H1 H2.
      apply list_elem_of_singleton in H1, H2. congruence.
    + intros c _. apply NoDup_singleton.
    + apply NoDup_seq.
  - apply NoDup_seq.
Qed.

Lemma block_length row0 rows col0 cols :
  length (block row0 rows col0 cols) = rows * cols.
Proof.
  unfold block.
  assert (Hin : ∀ (r : nat) (l : list nat), length (col ← l; [(r, col)]) = length l).
  { intros r l. induction l as [|c l IH]; [done|]. rewrite bind_cons. simpl.
    by rewrite IH. }
  assert (Hout : ∀ (l : list nat),
            length (row ← l; col ← seq col0 cols; [(row, col)]) = length l * cols).
  { induction l as [|r l IH]; [done|].
    rewrite bind_cons, length_app, IH, Hin, length_seq. simpl. lia. }
  by rewrite Hout, length_seq.
Qed.

Lemma length_filter_split {A} (P : A → Prop) `{∀ x, Decision (P x)} (l : list A) :
  length (filter P l) + length (filter (λ x, ¬ P x) l) = length l.
Proof.
  induction l as [|a l IH]; [done|]. destruct (decide (P a)).
  - rewrite (filter_cons_True P), (filter_cons_False (λ x, ¬ P x)) by tauto.
    simpl. lia.
  - rewrite (filter_cons_False P), (filter_cons_True (λ x, ¬ P x)) by tauto.
    simpl. lia.
Qed.

Lemma finder_cells_count (mc : nat) :
  14 ≤ mc →
  length (filter (λ cell, isFinder mc cell.1 cell.2 = true) (block 0 mc 0 mc)) = 147.
Proof.
  intros Hmc.
  assert (Hp : filter (λ cell, isFinder mc cell.1 cell.2 = true) (block 0 mc 0 mc)
               ≡ₚ block 0 7 0 7 ++ block 0 7 (mc - 7) 7 ++ block (mc - 7) 7 0 7).
  { apply NoDup_Permutation.
    - apply NoDup_filter, block_NoDup.
    - apply NoDup_app. split; [apply block_NoDup|]. split.
      + intros [r c] H1 H2. apply block_spec in H1.
        apply elem_of_app in H2 as [H2|H2]; apply block_spec in H2; lia.
      + apply NoDup_app. split; [apply block_NoDup|]. split; [|apply block_NoDup].
        intros [r c] H1 H2. apply block_spec in H1, H2. lia.
    - intros [r c]. rewrite list_elem_of_filter, !elem_of_app, !block_spec. simpl.
      rewrite isFinder_region. unfold finder_region. lia. }
  rewrite Hp, !length_app, !block_length. done.
Qed.

(** X12: for a matrix of side at least 14 the compositor paints the
    background image, then moduleCount * moduleCount - 147 dots, then the
    nine finder squares: moduleCount * moduleCount - 137 paints in all. *)
Theorem composite_paint_count (bgImg : image) (modules : bit_matrix) :
  14 ≤ modules_size modules →
  ∃ dots,
    painted (composite bgImg modules)
    = DrawImage bgImg 0 0 canvas_size canvas_size :: dots
      ++ all_finder_squares (scale_of modules) (num (modules_size modules))
    ∧ length dots + 147 = modules_size modules * modules_size modules
    ∧ length (painted (composite bgImg modules)) + 137
      = modules_size modules * modules_size modules.
Proof.
  intros Hmc. rewrite composite_painted. eexists. split; [done|].
  set (mc := modules_size modules) in *.
  assert (Hdots : length (dot_of modules (scale_of modules) <$>
                    filter (λ cell, isFinder mc cell.1 cell.2 = false) (cells mc))
                  + 147 = mc * mc).
  { rewrite length_fmap.
    pose proof (length_filter_split (λ cell, isFinder mc cell.1 cell.2 = true)
                  (block 0 mc 0 mc)) as Hsplit.
    rewrite finder_cells_count, block_length in Hsplit by done.
    replace (filter (λ cell, isFinder mc cell.1 cell.2 = false) (cells mc))
      with (filter (λ cell, ¬ isFinder mc cell.1 cell.2 = true) (block 0 mc 0 mc)).
    - lia.
    - apply list_filter_iff. intros [r c]. simpl.
      by rewrite not_true_iff_false. }
  split; [done|].
  simpl. rewrite length_app. unfold all_finder_squares, finder_squares. simpl.
  lia.
Qed.

Lemma composite_paint_count_witness :
  ∃ dots,
    painted (composite grey modules21)
    = DrawImage grey 0 0 canvas_size canvas_size :: dots
      ++ all_finder_squares (scale_of modules21) (num (modules_size modules21))
    ∧ length dots + 147 = modules_size modules21 * modules_size modules21
    ∧ length (painted (composite grey modules21)) + 137
      = modules_size modules21 * modules_size modules21.
Proof. apply (composite_paint_count grey modules21). simpl. lia. Defined.

(** * Further properties of generateArtisticQR *)

Lemma first_inline_app (pre : list (option string)) rest :
  Forall (λ p, p = None) pre → first_inline (pre ++ rest) = first_inline rest.
Proof.
  induction 1 as [|p pre -> _ IH]; [done|]. simpl. exact IH.
Qed.

(** X13: the loop over the stylizer's parts yields the empty string exactly
    when no part carries inline data, and otherwise the data URL of the
    first part that does, whatever follows it. *)
Theorem first_inline_first (parts : list (option string)) :
  (first_inline parts = "" ↔ Forall (λ p, p = None) parts)
  ∧ ∀ pre data rest,
      parts = pre ++ Some data :: rest → Forall (λ p, p = None) pre →
      first_inline parts = "data:image/png;base64," +:+ data.
Proof.
  split.
  - induction parts as [|[data|] parts IH]; simpl.
    + split; [constructor|done].
    + split; [done|]. intros H. by apply Forall_cons in H as [? _].
    + rewrite IH. split; [by constructor|]. intros H. by apply Forall_cons in H as [_ ?].
  - intros pre data rest -> Hpre. by rewrite first_inline_app.
Qed.

(** X14: without a source image or without text generateArtisticQR makes no
    call and leaves the database alone; otherwise its first call is the
    POST of the entered text, no later call is a POST, and the database
    afterwards is the database after that one POST, whatever the later
    steps do. *)
Theorem generate_database_effect (w : world) (sourceImage : option string)
    (text : string) (d : db) :
  (falsy sourceImage = true ∨ text = "" →
     generate w sourceImage text d = (d, [], NotStarted))
  ∧ (falsy sourceImage = false → text ≠ "" →
     (generate w sourceImage text d).1.1
       = (handle (server_config w) (server_oracle w) (PostLinks (Some text)) d).1
     ∧ ∃ rest,
         (generate w sourceImage text d).1.2
         = CalledPostLinks text
             (handle (server_config w) (server_oracle w) (PostLinks (Some text)) d).2
           :: rest
         ∧ ∀ t r, CalledPostLinks t r ∉ rest).
Proof.
  split.
  - intros H. unfold generate, generateArtisticQR.
    assert (Hf : falsy sourceImage || falsy (Some text) = true).
    { destruct H as [->| ->]; [done|]. by rewrite orb_true_r. }
    by rewrite Hf.
  - intros Hs Ht. unfold generate, generateArtisticQR.
    assert (Hf : falsy sourceImage || falsy (Some text) = false).
    { rewrite Hs. simpl. by apply bool_decide_eq_false. }
    rewrite Hf. cbn [run].
    destruct (handle (server_config w) (server_oracle w) (PostLinks (Some text)) d)
      as [d1 r] eqn:Hh.
    assert (Hno : ∀ t r' (l : list call), (∀ c, c ∈ l → ∀ t r', c ≠ CalledPostLinks t r') →
                    CalledPostLinks t r' ∉ l).
    { intros t r' l Hl Hin. by apply (Hl _ Hin t r'). }
    destruct (json_shortUrl r) as [shortUrl|]; simpl.
    2:{ split; [done|]. eexists. split; [done|]. intros t r'. apply not_elem_of_nil. }
    destruct (generateContent w (default "" sourceImage)) as [msg|parts]; simpl.
    { split; [done|]. eexists. split; [done|]. intros t r'.
      by intros ?%list_elem_of_singleton. }
    destruct (decide (first_inline parts = "")); simpl.
    { split; [done|]. eexists. split; [done|]. intros t r'.
      by intros ?%list_elem_of_singleton. }
    destruct (match shortUrl with Some t => QRCode_create w t "H" | None => _ end)
      as [msg|modules]; simpl.
    { split; [done|]. eexists. split; [done|]. intros t r'.
      rewrite !elem_of_cons, elem_of_nil. intros [?|[?|[]]]; done. }
    destruct (getContext w); simpl.
    2:{ split; [done|]. eexists. split; [done|]. intros t r'.
        rewrite !elem_of_cons, elem_of_nil. intros [?|[?|[?|[]]]]; done. }
    destruct (decode_image w (first_inline parts)) as [bg|]; simpl.
    + split; [done|]. eexists. split; [done|]. intros t r'.
      rewrite !elem_of_cons, elem_of_nil. intros [?|[?|[?|[?|[]]]]]; done.
    + split; [done|]. eexists. split; [done|]. intros t r'.
      rewrite !elem_of_cons, elem_of_nil. intros [?|[?|[?|[?|[]]]]]; done.
Qed.

Lemma post_links_fresh cfg o u d :
  u ≠ "" → links d !! shortid_generate o = None →
  handle cfg o (PostLinks (Some u)) d
  = (Db (<[shortid_generate o := LinkCols u (now o)]> (links d)) (scans d)
        (scans_seq d) (settings d),
     Json 200 (JCreated (shortid_generate o)
                 (base_url cfg +:+ "/s/" +:+ shortid_generate o))).
Proof.
  intros Hu Hn. simpl. unfold post_links, insert_link. simpl.
  rewrite bool_decide_eq_false_2 by done. by rewrite Hn.
Qed.

Lemma post_links_taken cfg o u d :
  u ≠ "" → is_Some (links d !! shortid_generate o) →
  handle cfg o (PostLinks (Some u)) d = (d, Uncaught).
Proof.
  intros Hu [c Hc]. simpl. unfold post_links, insert_link. simpl.
  rewrite bool_decide_eq_false_2 by done. by rewrite Hc.
Qed.

(** X15: generateArtisticQR ends with a result image exactly when both
    inputs are present, the generated id is not stored yet, the stylizer
    answers a part with inline data, the encoder returns a matrix for the
    short url at level H, the canvas context exists and the stylized image
    decodes; the image is then the composite of that image and matrix. *)
Theorem generate_result_iff (w : world) (sourceImage : option string)
    (text : string) (d : db) (canvas : context2d) :
  (generate w sourceImage text d).2 = ResultImage canvas
  ↔ falsy sourceImage = false ∧ text ≠ ""
    ∧ links d !! shortid_generate (server_oracle w) = None
    ∧ ∃ parts modules bgImg,
        generateContent w (default "" sourceImage) = inr parts
        ∧ first_inline parts ≠ ""
        ∧ QRCode_create w (base_url (server_config w) +:+ "/s/"
                           +:+ shortid_generate (server_oracle w)) "H"
          = inr modules
        ∧ getContext w = true
        ∧ decode_image w (first_inline parts) = Some bgImg
        ∧ canvas = composite bgImg modules.
Proof.
  unfold generate, generateArtisticQR.
  destruct (falsy sourceImage || falsy (Some text)) eqn:Hf.
  { simpl. split; [done|]. intros (Hs & Hne & _).
    rewrite Hs in Hf. simpl in Hf. by apply bool_decide_eq_true in Hf. }
  apply orb_false_elim in Hf as [Hs Ht].
  assert (Htext : text ≠ "") by (simpl in Ht; by apply bool_decide_eq_false in Ht).
  cbn [run].
  destruct (links d !! shortid_generate (server_oracle w)) as [c|] eqn:Hl.
  { rewrite post_links_taken by (done || by eexists). simpl.
    split; [done|]. intros (_ & _ & ? & _). done. }
  rewrite post_links_fresh by done. simpl.
  destruct (generateContent w (default "" sourceImage)) as [msg|parts]; simpl.
  { split; [done|]. intros (_ & _ & _ & ? & ? & ? & ? & _). done. }
  destruct (decide (first_inline parts = "")) as [He|Hne]; simpl.
  { split; [done|]. intros (_ & _ & _ & ? & ? & ? & [= <-] & ? & _). done. }
  destruct (QRCode_create w _ "H") as [msg|modules]; simpl.
  { split; [done|]. intros (_ & _ & _ & ? & ? & ? & _ & _ & ? & _). done. }
  destruct (getContext w); simpl.
  2:{ split; [done|]. intros (_ & _ & _ & ? & ? & ? & _ & _ & _ & ? & _). done. }
  destruct (decode_image w (first_inline parts)) as [bg|] eqn:Hd; simpl.
  2:{ split; [done|].
      intros (_ & _ & _ & ? & ? & ? & [= <-] & _ & _ & _ & Hd' & _).
      rewrite Hd in Hd'. done. }
  split.
  - intros [= <-]. repeat split; try done. by exists parts, modules, bg.
  - intros (_ & _ & _ & ? & ? & ? & [= <-] & _ & [= <-] & _ & Hd' & ->).
    rewrite Hd in Hd'. by injection Hd' as <-.
Qed.

(** X16: when the stylizer throws or answers no inline image, the link
    created at the start of the run stays stored with the entered text as
    its target, the QR encoder is never called, and the run ends with a
    non-empty error message. *)
Theorem generate_failure_keeps_link (w : world) (sourceImage : option string)
    (text : string) (d : db) :
  falsy sourceImage = false → text ≠ "" →
  links d !! shortid_generate (server_oracle w) = None →
  (∀ parts, generateContent w (default "" sourceImage) = inr parts →
            first_inline parts = "") →
  links (generate w sourceImage text d).1.1 !! shortid_generate (server_oracle w)
    = Some (LinkCols text (now (server_oracle w)))
  ∧ qr_calls (generate w sourceImage text d).1.2 = []
  ∧ ∃ message, (generate w sourceImage text d).2 = ErrorMessage message
               ∧ message ≠ "".
Proof.
  intros Hs Htext Hl Hfail. unfold generate, generateArtisticQR.
  assert (Hf : falsy sourceImage || falsy (Some text) = false).
  { rewrite Hs. simpl. by apply bool_decide_eq_false. }
  rewrite Hf. cbn [run]. rewrite post_links_fresh by done. simpl.
  destruct (generateContent w (default "" sourceImage)) as [msg|parts]; simpl.
  - split; [apply lookup_insert_eq|]. split; [done|].
    eexists. split; [done|]. by destruct (decide (msg = "")).
  - rewrite (Hfail parts eq_refl). simpl.
    split; [apply lookup_insert_eq|]. split; [done|]. by eexists.
Qed.

Lemma generate_failure_keeps_link_witness :
  links (generate (World cfg0 o0 (λ _, inl "quota exceeded") (λ _ _, inr modules21)
                         true (λ _, Some grey))
                  (Some "data:image/png;base64,AAAA") "https://google.com" fresh_db).1.1
    !! "abc"
  = Some (LinkCols "https://google.com" (DateTime 2024 1 1 9 0 0)).
Proof.
  refine (proj1 (generate_failure_keeps_link
            (World cfg0 o0 (λ _, inl "quota exceeded") (λ _ _, inr modules21)
                   true (λ _, Some grey))
            (Some "data:image/png;base64,AAAA") "https://google.com" fresh_db
            eq_refl _ eq_refl _)).
  - discriminate.
  - intros parts. discriminate.
Defined.

(** * Restart, and the detail pane *)

(** X18: running the schema initialisation twice is the same as running it
    once; on a state the server can be in it changes nothing; on any
    database it keeps the links, the scans and every setting present. *)
Theorem restart_changes_nothing (cfg : config) (d : db) :
  init_schema (init_schema d) = init_schema d
  ∧ (reachable cfg d → init_schema d = d)
  ∧ links (init_schema d) = links d ∧ scans (init_schema d) = scans d
  ∧ ∀ k v, settings d !! k = Some v → settings (init_schema d) !! k = Some v.
Proof.
  split; [|split; [|split; [|split]]].
  - destruct (proj1 (init_schema_is_pro d)) as [v Hv].
    by apply (proj1 (proj2 (init_schema_is_pro (init_schema d))) v).
  - intros Hr. destruct (reachable_has_is_pro cfg d Hr) as [v Hv].
    by apply (proj1 (proj2 (init_schema_is_pro d)) v).
  - apply init_schema_tables.
  - apply init_schema_tables.
  - intros k v Hk. unfold init_schema.
    destruct (settings d !! "is_pro") eqn:Hp; [done|]. simpl.
    rewrite lookup_insert_ne; [done|]. intros <-. congruence.
Qed.

(** X17: fetchDetailedAnalytics puts the detail of a stored id in the
    detail pane, which then counts as showing that id; for an id that is
    not stored it puts the 404 body there, an answer without a link, for
    which reading the shown id throws. *)
Theorem detail_pane_after_fetch (cfg : config) (o : oracle) (i : string) (d : db)
    (st : dashboard) :
  (∀ c, links d !! i = Some c →
     fetchDetailedAnalytics cfg o i d st
       = Dashboard (linksData st)
           (Some (JAnalytics (Link i (lc_target_url c) (lc_created_at c))
                    (select_scans i d) (select_chart_data i d)))
     ∧ selected_is (fetchDetailedAnalytics cfg o i d st) i = Some true)
  ∧ (links d !! i = None →
     fetchDetailedAnalytics cfg o i d st
       = Dashboard (linksData st) (Some (JError "Link not found"))
     ∧ ∀ j, selected_is (fetchDetailedAnalytics cfg o i d st) j = None).
Proof.
  unfold fetchDetailedAnalytics. simpl. unfold get_analytics, select_link. split.
  - intros c Hc. rewrite Hc. simpl. split; [done|].
    unfold selected_is. simpl. by rewrite bool_decide_eq_true_2.
  - intros Hn. rewrite Hn. simpl. done.
Qed.
